(** * Publishing-date recommendation service: the request handler of
    [article-function/main.py]

    The development embeds the Flask handler [get_publishing_recommendation]
    together with the pieces of the Python runtime it relies on:

    - Python [str] values are sequences of Unicode code points ([pystr]);
      the string methods the handler calls ([strip], [startswith],
      [endswith], [split], [find], [rfind], [in], slicing) are functions
      on these sequences;
    - the values produced by [json.loads] and by [request.get_json] are the
      inductive type [json]; [json_loads] is a recursive-descent decoder
      that follows CPython's [json.decoder] / [json.scanner];
    - the analytical store, the generative model and the pieces of the
      interpreter that are outside the file ([json.dumps] over store rows,
      [format] of a non-string value) are fields of a [world] record;
    - the handler runs in a small error-and-trace monad; the trace records
      every call that leaves the process.

    Not modelled: what [print] writes to the standard output, the
    interpreter's resource limits (recursion depth, the digit limit of
    [int]), and the rounding of float literals (a float is kept as the
    literal it was read from). *)

From Stdlib Require Import Ascii String List NArith ZArith Bool Lia.
Import ListNotations.

Local Open Scope list_scope.

(* ================================================================== *)
(** ** Python strings *)
(* ================================================================== *)

Module Py.

(** A code point. *)
Definition char := N.

(** A Python [str]. *)
Definition pystr := list char.

Definition chr (a : ascii) : char := N_of_ascii a.
Arguments chr a%_char.

(** [c == 'a'] for a character [c] and an ASCII character ['a']. *)
Definition ischr (c : char) (a : ascii) : bool := N.eqb c (chr a).
Arguments ischr c a%_char.

(** The string with the characters of an ASCII literal. *)
Definition py (s : string) : pystr := map chr (list_ascii_of_string s).
Arguments py s%_string.

(** The same, with every apostrophe of the literal standing for a double
    quote (code point 34). *)
Definition pyq (s : string) : pystr :=
  map (fun c => if N.eqb c 39 then 34%N else c) (py s).
Arguments pyq s%_string.

Definition nl : pystr := [10%N].

(** ["\n".join(ls)] *)
Fixpoint join_lines (ls : list pystr) : pystr :=
  match ls with
  | [] => []
  | [l] => l
  | l :: rest => l ++ nl ++ join_lines rest
  end.

Fixpoint str_eqb (a b : pystr) : bool :=
  match a, b with
  | [], [] => true
  | x :: a', y :: b' => N.eqb x y && str_eqb a' b'
  | _, _ => false
  end.

(** [s.startswith(p)] *)
Fixpoint startswith (p s : pystr) : bool :=
  match p, s with
  | [], _ => true
  | x :: p', y :: s' => N.eqb x y && startswith p' s'
  | _ :: _, [] => false
  end.

(** [s.endswith(p)] *)
Definition endswith (p s : pystr) : bool := startswith (rev p) (rev s).

(** [c in s], for a one-character [c] *)
Fixpoint contains (c : char) (s : pystr) : bool :=
  match s with
  | [] => false
  | x :: s' => N.eqb x c || contains c s'
  end.

(** [s.find(c)], for a one-character [c]: the lowest index, or -1. *)
Fixpoint find (c : char) (s : pystr) : Z :=
  match s with
  | [] => (-1)%Z
  | x :: s' =>
      if N.eqb x c then 0%Z
      else let i := find c s' in
           if Z.ltb i 0 then (-1)%Z else Z.succ i
  end.

(** [s.rfind(c)], for a one-character [c]: the highest index, or -1. *)
Fixpoint rfind (c : char) (s : pystr) : Z :=
  match s with
  | [] => (-1)%Z
  | x :: s' =>
      let i := rfind c s' in
      if Z.ltb i 0 then (if N.eqb x c then 0%Z else (-1)%Z)
      else Z.succ i
  end.

(** A slice bound [i] against a sequence of length [len]: negative bounds
    count from the end, and every bound is clamped to [0 .. len]. *)
Definition clamp (len : nat) (i : Z) : nat :=
  let n := Z.of_nat len in
  if Z.ltb i 0 then Z.to_nat (Z.max 0 (i + n)) else Z.to_nat (Z.min i n).

(** [s[lo:hi]]; [None] is an omitted bound. *)
Definition slice {A} (s : list A) (lo hi : option Z) : list A :=
  let a := match lo with None => 0 | Some i => clamp (length s) i end in
  let b := match hi with None => length s | Some i => clamp (length s) i end in
  skipn a (firstn b s).

(** [str.isspace] for one character: the code points Python's [strip]
    removes when called without an argument. *)
Definition isspace (c : char) : bool :=
  (N.leb 9 c && N.leb c 13) || (N.leb 28 c && N.leb c 32)
  || N.eqb c 133 || N.eqb c 160 || N.eqb c 5760
  || (N.leb 8192 c && N.leb c 8202)
  || N.eqb c 8232 || N.eqb c 8233 || N.eqb c 8239 || N.eqb c 8287
  || N.eqb c 12288.

Fixpoint lstrip (s : pystr) : pystr :=
  match s with
  | [] => []
  | c :: s' => if isspace c then lstrip s' else s
  end.

Definition rstrip (s : pystr) : pystr := rev (lstrip (rev s)).

(** [s.strip()] *)
Definition strip (s : pystr) : pystr := rstrip (lstrip s).

(** [s.split(sep)] for a non-empty [sep]: the pieces between the
    non-overlapping occurrences of [sep], found from the left.  [skip]
    counts the characters of a matched separator still to be passed over;
    [cur] is the piece being collected, last character first. *)
Fixpoint split_go (sep : pystr) (skip : nat) (cur : pystr) (s : pystr)
  : list pystr :=
  match s with
  | [] => [rev cur]
  | c :: s' =>
      match skip with
      | S k => split_go sep k cur s'
      | O =>
          if startswith sep s
          then rev cur :: split_go sep (length sep - 1) [] s'
          else split_go sep 0 (c :: cur) s'
      end
  end.

Definition split (sep s : pystr) : list pystr := split_go sep 0 [] s.

End Py.
Import Py.


(* ================================================================== *)
(** ** JSON values, as Python holds them *)
(* ================================================================== *)

(** The Python values [json.loads] (and so [request.get_json]) returns.
    [JNull] is [None]; a [dict] keeps its keys in insertion order, each key
    once.  A float is kept as the literal it was read from. *)
#[warnings="-register-all"]
Inductive json : Type :=
| JNull
| JBool (b : bool)
| JInt (z : Z)
| JFloat (literal : pystr)
| JString (s : pystr)
| JArray (items : list json)
| JObject (fields : list (pystr * json)).

(** [d.get(key)] on a dict: [None] when the key is absent. *)
Fixpoint dict_lookup (key : pystr) (d : list (pystr * json)) : option json :=
  match d with
  | [] => None
  | (k, v) :: d' => if str_eqb k key then Some v else dict_lookup key d'
  end.

(** [d.get(key, default)] *)
Definition dict_get (d : list (pystr * json)) (key : pystr) (default : json)
  : json :=
  match dict_lookup key d with
  | Some v => v
  | None => default
  end.

(** [d[key] = v]: a key already present keeps its place. *)
Fixpoint dict_set (key : pystr) (v : json) (d : list (pystr * json))
  : list (pystr * json) :=
  match d with
  | [] => [(key, v)]
  | (k, w) :: d' =>
      if str_eqb k key then (k, v) :: d' else (k, w) :: dict_set key v d'
  end.

(** [dict(pairs)] *)
Definition dict_of_pairs (pairs : list (pystr * json)) : list (pystr * json) :=
  fold_left (fun d kv => dict_set (fst kv) (snd kv) d) pairs [].

(** *** Digits and float literals *)

Definition isdigit (c : char) : bool := N.leb 48 c && N.leb c 57.

(** The longest prefix of decimal digits, and what follows it. *)
Fixpoint span_digits (s : pystr) : pystr * pystr :=
  match s with
  | [] => ([], [])
  | c :: s' =>
      if isdigit c
      then let (ds, rest) := span_digits s' in (c :: ds, rest)
      else ([], s)
  end.

(** The number a sequence of decimal digits denotes. *)
Definition digits_value (ds : pystr) : Z :=
  fold_left (fun acc c => (10 * acc + (Z.of_N c - 48))%Z) ds 0%Z.

(** [float(literal) != 0.0] for a literal of the JSON number grammar
    (sign, integer part, optional fraction, optional exponent) or one of
    [NaN], [Infinity], [-Infinity]: the literal denotes m * 10^e, and a
    double is zero exactly when the value it is rounded from is at most
    2^-1075 in magnitude. *)
Definition float_nonzero (literal : pystr) : bool :=
  let unsigned :=
    match literal with
    | c :: r => if ischr c "-" then r else literal
    | [] => []
    end in
  let (ip, r1) := span_digits unsigned in
  match ip with
  | [] => true
  | _ =>
      let (fp, r2) :=
        match r1 with
        | c :: r => if ischr c "." then span_digits r else ([], r1)
        | [] => ([], [])
        end in
      let ex :=
        match r2 with
        | c :: r =>
            if ischr c "e" || ischr c "E" then
              match r with
              | sg :: r' =>
                  if ischr sg "-" then (- digits_value (fst (span_digits r')))%Z
                  else if ischr sg "+" then digits_value (fst (span_digits r'))
                  else digits_value (fst (span_digits r))
              | [] => 0%Z
              end
            else 0%Z
        | [] => 0%Z
        end in
      let m := digits_value (ip ++ fp) in
      let e := (ex - Z.of_nat (length fp))%Z in
      if Z.eqb m 0 then false
      else if Z.leb 0 e then true
      else Z.ltb (10 ^ (- e)) (m * 2 ^ 1075)
  end.

(** [bool(v)]: the truth value Python's [not] and [if] test. *)
Definition truthy (v : json) : bool :=
  match v with
  | JNull => false
  | JBool b => b
  | JInt z => negb (Z.eqb z 0)
  | JFloat l => float_nonzero l
  | JString s => match s with [] => false | _ => true end
  | JArray l => match l with [] => false | _ => true end
  | JObject d => match d with [] => false | _ => true end
  end.

(** [type(v).__name__] *)
Definition type_name (v : json) : pystr :=
  match v with
  | JNull => py "NoneType"
  | JBool _ => py "bool"
  | JInt _ => py "int"
  | JFloat _ => py "float"
  | JString _ => py "str"
  | JArray _ => py "list"
  | JObject _ => py "dict"
  end.

(* ================================================================== *)
(** ** [json.loads] *)
(* ================================================================== *)

Module Decoder.

(** What a scanning function returns: a value and the text after it, a
    [JSONDecodeError], or [Exhausted] when the recursion budget of the
    model ran out (shown below never to happen in [json_loads]). *)
Inductive parsed (A : Type) : Type :=
| Parsed (a : A) (rest : pystr)
| Invalid
| Exhausted.
Arguments Parsed {A} a rest.
Arguments Invalid {A}.
Arguments Exhausted {A}.

(** [WHITESPACE.match(s, idx).end()]: the decoder's whitespace is the four
    characters space, tab, line feed and carriage return. *)
Definition is_ws (c : char) : bool :=
  ischr c " " || N.eqb c 9 || N.eqb c 10 || N.eqb c 13.

Fixpoint skip_ws (s : pystr) : pystr :=
  match s with
  | [] => []
  | c :: s' => if is_ws c then skip_ws s' else s
  end.

Definition hex_value (c : char) : option N :=
  if isdigit c then Some (c - 48)%N
  else if N.leb 97 c && N.leb c 102 then Some (c - 87)%N
  else if N.leb 65 c && N.leb c 70 then Some (c - 55)%N
  else None.

(** [_decode_uXXXX]: the code unit four hexadecimal digits denote. *)
Definition hex4 (a b c d : char) : option N :=
  match hex_value a, hex_value b, hex_value c, hex_value d with
  | Some x, Some y, Some z, Some w => Some (((x * 16 + y) * 16 + z) * 16 + w)%N
  | _, _, _, _ => None
  end.

(** The table [BACKSLASH] of one-character escapes. *)
Definition unescape (c : char) : option char :=
  if N.eqb c 34 then Some 34%N
  else if N.eqb c 92 then Some 92%N
  else if ischr c "/" then Some (chr "/")
  else if ischr c "b" then Some 8%N
  else if ischr c "f" then Some 12%N
  else if ischr c "n" then Some 10%N
  else if ischr c "r" then Some 13%N
  else if ischr c "t" then Some 9%N
  else None.

Definition is_high_surrogate (u : N) : bool := N.leb 55296 u && N.leb u 56319.
Definition is_low_surrogate (u : N) : bool := N.leb 56320 u && N.leb u 57343.

Definition join_surrogates (hi lo : N) : N :=
  (65536 + N.lor (N.shiftl (hi - 55296) 10) (lo - 56320))%N.

(** One round of the loop of [scanstring]: the closing quote, or one
    decoded character (a plain one, an escape, or a surrogate pair written
    as two escapes), or an error (end of text, a control character, a bad
    escape). *)
Inductive chunk : Type :=
| ChunkEnd (rest : pystr)
| ChunkChar (c : char) (rest : pystr)
| ChunkBad.

Definition next_chunk (s : pystr) : chunk :=
  match s with
  | [] => ChunkBad
  | c :: r =>
      if N.eqb c 34 then ChunkEnd r
      else if N.eqb c 92 then
        match r with
        | [] => ChunkBad
        | e :: r1 =>
            if ischr e "u" then
              match r1 with
              | h1 :: h2 :: h3 :: h4 :: r2 =>
                  match hex4 h1 h2 h3 h4 with
                  | None => ChunkBad
                  | Some u =>
                      if is_high_surrogate u && startswith [92%N; chr "u"] r2
                      then
                        match r2 with
                        | _ :: _ :: g1 :: g2 :: g3 :: g4 :: r3 =>
                            match hex4 g1 g2 g3 g4 with
                            | None => ChunkBad
                            | Some u2 =>
                                if is_low_surrogate u2
                                then ChunkChar (join_surrogates u u2) r3
                                else ChunkChar u r2
                            end
                        | _ => ChunkBad
                        end
                      else ChunkChar u r2
                  end
              | _ => ChunkBad
              end
            else
              match unescape e with
              | Some c' => ChunkChar c' r1
              | None => ChunkBad
              end
        end
      else if N.ltb c 32 then ChunkBad
      else ChunkChar c r
  end.

(** [scanstring(s, end, strict=True)], entered after the opening quote.
    [acc] holds the decoded characters, last first; [n] bounds the number
    of rounds. *)
Fixpoint scanstring (n : nat) (acc : pystr) (s : pystr) : parsed pystr :=
  match n with
  | O => Exhausted
  | S n' =>
      match next_chunk s with
      | ChunkEnd r => Parsed (rev acc) r
      | ChunkChar c r => scanstring n' (c :: acc) r
      | ChunkBad => Invalid
      end
  end.

(** [NUMBER_RE.match(s, idx)]: an optional minus sign and an integer part
    (a single 0, or a non-zero digit and more digits), then optionally a
    fraction (a dot and at least one digit), then optionally an exponent
    (e or E, an optional sign, at least one digit); and the value the
    scanner builds from these groups: an [int] when there is neither
    fraction nor exponent, a [float] of the matched text otherwise. *)
Definition match_number (s : pystr) : option (json * pystr) :=
  let (neg, s0) :=
    match s with
    | c :: r => if ischr c "-" then (true, r) else (false, s)
    | [] => (false, [])
    end in
  let integer :=
    match s0 with
    | c :: r =>
        if ischr c "0" then Some ([c], r)
        else if isdigit c then let (ds, r') := span_digits r in Some (c :: ds, r')
        else None
    | [] => None
    end in
  match integer with
  | None => None
  | Some (ip, r1) =>
      let (frac, r2) :=
        match r1 with
        | c :: r =>
            if ischr c "." then
              match span_digits r with
              | ([], _) => ([], r1)
              | (ds, r') => (c :: ds, r')
              end
            else ([], r1)
        | [] => ([], r1)
        end in
      let (ex, r3) :=
        match r2 with
        | c :: r =>
            if ischr c "e" || ischr c "E" then
              let (sg, rs) :=
                match r with
                | x :: r' =>
                    if ischr x "-" || ischr x "+" then ([x], r') else ([], r)
                | [] => ([], r)
                end in
              match span_digits rs with
              | ([], _) => ([], r2)
              | (ds, r') => (c :: sg ++ ds, r')
              end
            else ([], r2)
        | [] => ([], r2)
        end in
      let sign := if neg then py "-" else [] in
      match frac, ex with
      | [], [] =>
          Some (JInt (if neg then - digits_value ip else digits_value ip)%Z, r3)
      | _, _ => Some (JFloat (sign ++ ip ++ frac ++ ex), r3)
      end
  end.

(** The loop of [JSONArray], entered at the first character of an element.
    [scan] is [scan_once]; [acc] holds the elements read, last first. *)
Fixpoint array_items (scan : pystr -> parsed json) (n : nat)
  (acc : list json) (s : pystr) : parsed json :=
  match n with
  | O => Exhausted
  | S n' =>
      match scan s with
      | Parsed v r =>
          match skip_ws r with
          | c :: r' =>
              if ischr c "]" then Parsed (JArray (rev (v :: acc))) r'
              else if ischr c "," then array_items scan n' (v :: acc) (skip_ws r')
              else Invalid
          | [] => Invalid
          end
      | Invalid => Invalid
      | Exhausted => Exhausted
      end
  end.

(** [JSONArray], entered after the opening bracket. *)
Definition parse_array (scan : pystr -> parsed json) (n : nat) (s : pystr)
  : parsed json :=
  match skip_ws s with
  | c :: r =>
      if ischr c "]" then Parsed (JArray []) r
      else array_items scan n [] (c :: r)
  | [] => array_items scan n [] []
  end.

(** The loop of [JSONObject], entered after the opening quote of a key.
    [acc] holds the pairs read, last first. *)
Fixpoint object_members (scan : pystr -> parsed json) (n : nat)
  (acc : list (pystr * json)) (s : pystr) : parsed json :=
  match n with
  | O => Exhausted
  | S n' =>
      match scanstring n [] s with
      | Parsed key r =>
          match skip_ws r with
          | c :: r1 =>
              if ischr c ":" then
                match scan (skip_ws r1) with
                | Parsed v r2 =>
                    match skip_ws r2 with
                    | d :: r3 =>
                        if ischr d "}"
                        then Parsed (JObject (dict_of_pairs (rev ((key, v) :: acc)))) r3
                        else if ischr d "," then
                          match skip_ws r3 with
                          | q :: r4 =>
                              if N.eqb q 34
                              then object_members scan n' ((key, v) :: acc) r4
                              else Invalid
                          | [] => Invalid
                          end
                        else Invalid
                    | [] => Invalid
                    end
                | Invalid => Invalid
                | Exhausted => Exhausted
                end
              else Invalid
          | [] => Invalid
          end
      | Invalid => Invalid
      | Exhausted => Exhausted
      end
  end.

(** [JSONObject], entered after the opening brace. *)
Definition parse_object (scan : pystr -> parsed json) (n : nat) (s : pystr)
  : parsed json :=
  match skip_ws s with
  | c :: r =>
      if ischr c "}" then Parsed (JObject []) r
      else if N.eqb c 34 then object_members scan n [] r
      else Invalid
  | [] => Invalid
  end.

(** [scan_once(string, idx)].  [fuel] bounds the nesting depth, the
    number of elements of one container and the length of one string. *)
Fixpoint scan_once (fuel : nat) (s : pystr) : parsed json :=
  match fuel with
  | O => Exhausted
  | S f =>
      match s with
      | [] => Invalid
      | c :: r =>
          if N.eqb c 34 then
            match scanstring f [] r with
            | Parsed str r' => Parsed (JString str) r'
            | Invalid => Invalid
            | Exhausted => Exhausted
            end
          else if ischr c "{" then parse_object (scan_once f) f r
          else if ischr c "[" then parse_array (scan_once f) f r
          else if startswith (py "null") s then Parsed JNull (skipn 4 s)
          else if startswith (py "true") s then Parsed (JBool true) (skipn 4 s)
          else if startswith (py "false") s then Parsed (JBool false) (skipn 5 s)
          else
            match match_number s with
            | Some (v, r') => Parsed v r'
            | None =>
                if startswith (py "NaN") s
                then Parsed (JFloat (py "NaN")) (skipn 3 s)
                else if startswith (py "Infinity") s
                then Parsed (JFloat (py "Infinity")) (skipn 8 s)
                else if startswith (py "-Infinity") s
                then Parsed (JFloat (py "-Infinity")) (skipn 9 s)
                else Invalid
            end
      end
  end.

(** [JSONDecoder.decode]: one value between optional whitespace, and
    nothing after it. *)
Definition decode (fuel : nat) (s : pystr) : parsed json :=
  match scan_once fuel (skip_ws s) with
  | Parsed v r =>
      match skip_ws r with
      | [] => Parsed v []
      | _ :: _ => Invalid
      end
  | Invalid => Invalid
  | Exhausted => Exhausted
  end.

(** A scanner that returns strictly less text than it was given. *)
Definition shrinking (scan : pystr -> parsed json) : Prop :=
  forall s v r, scan s = Parsed v r -> length r < length s.

(** [scan'] agrees with [scan] wherever [scan] has an answer. *)
Definition extends (scan scan' : pystr -> parsed json) : Prop :=
  forall s, scan s <> Exhausted -> scan' s = scan s.

End Decoder.

(** [json.loads(s)] for a [str]: [None] stands for a raised
    [json.JSONDecodeError].  A text that opens with a byte-order mark is
    refused. *)
Definition json_loads (s : pystr) : option json :=
  if startswith [65279%N] s then None
  else
    match Decoder.decode (S (length s)) s with
    | Decoder.Parsed v _ => Some v
    | _ => None
    end.


(* ================================================================== *)
(** ** The world outside the handler *)
(* ================================================================== *)

(** A raised exception, as far as the handler tells exceptions apart: the
    class [json.JSONDecodeError] (with its subclasses) or any other
    [Exception]; [msg] is [str(e)]. *)
Inductive exn : Type :=
| JSONDecodeError (msg : pystr)
| OtherError (msg : pystr).

Definition str_exn (e : exn) : pystr :=
  match e with
  | JSONDecodeError m => m
  | OtherError m => m
  end.

(** The arguments of [model.generate_content]: the model's name, the
    generation configuration (its two float settings as written in the
    source) and the prompt. *)
Record generation_call : Type := {
  model_name : pystr;
  temperature : pystr;
  max_output_tokens : Z;
  top_p : pystr;
  prompt : pystr
}.

(** What a request meets outside the handler.  [Row] is the type of a
    store row turned into a [dict]. *)
Record world (Row : Type) : Type := {
  (** [bigquery.Client(project=BQ_PROJECT_ID)]: the exception it raises,
      if any *)
  new_client : option exn;
  (** [client.query(sql).result()], iterated to its end *)
  run_query : pystr -> exn + list Row;
  (** [model.generate_content(prompt, generation_config=...)] followed by
      [response.text] *)
  generate_content : generation_call -> exn + pystr;
  (** [json.dumps(rows, default=str, indent=2)] *)
  json_dumps : list Row -> pystr;
  (** [str(v)] for a value that is not a [str], as an f-string renders it *)
  py_str : json -> pystr;
  (** [str(e)] for the exception [d[:1000]] raises on a [dict] (it differs
      between versions of the interpreter) *)
  dict_slice_error : pystr
}.
Arguments new_client {Row}.
Arguments run_query {Row}.
Arguments generate_content {Row}.
Arguments json_dumps {Row}.
Arguments py_str {Row}.
Arguments dict_slice_error {Row}.

(** A call that leaves the process. *)
Inductive event (Row : Type) : Type :=
| EvClient
| EvQuery (sql : pystr)
| EvGenerate (call : generation_call).
Arguments EvClient {Row}.
Arguments EvQuery {Row}.
Arguments EvGenerate {Row}.

(** *** The monad of the handler's [try] block: a computation yields the
    calls it made and either a raised exception or a value. *)
Definition M (Row A : Type) : Type := list (event Row) * (exn + A).

Definition ret {Row A} (a : A) : M Row A := ([], inr a).

Definition raise {Row A} (e : exn) : M Row A := ([], inl e).

Definition bind {Row A B} (m : M Row A) (k : A -> M Row B) : M Row B :=
  match m with
  | (t, inl e) => (t, inl e)
  | (t, inr a) => let (t', r) := k a in (t ++ t', r)
  end.

Notation "x <- m ;; k" := (bind m (fun x => k))
  (at level 61, m at next level, right associativity).

(** A call to the outside: it is recorded, and it returns or raises. *)
Definition call {Row A} (ev : event Row) (r : exn + A) : M Row A := ([ev], r).

(* ================================================================== *)
(** ** HTTP requests and responses *)
(* ================================================================== *)

(** The methods the route [/recommend] accepts. *)
Inductive http_method : Type := POST | OPTIONS.

(** A request, as the handler reads it.  [json_body] is the JSON value of
    the body when the request carries one that the framework can decode,
    and [None] otherwise. *)
Record request : Type := {
  method : http_method;
  json_body : option json
}.

(** [request.get_json(silent=True)]: Python's [None] when there is no
    decodable JSON body. *)
Definition get_json_silent (req : request) : json :=
  match json_body req with
  | Some v => v
  | None => JNull
  end.

(** The body of a response: a plain string, or what [jsonify] was given. *)
Inductive body : Type :=
| Text (s : pystr)
| Jsonify (v : json).

(** The triple [(body, status, headers)] a view returns; [headers] are the
    ones the handler passes itself (none for a two-element return). *)
Record response : Type := {
  resp_body : body;
  status : Z;
  headers : list (pystr * pystr)
}.

(* ================================================================== *)
(** ** The handler *)
(* ================================================================== *)

Definition dq : pystr := [34%N].
Definition endash : pystr := [8211%N].

Definition fence : pystr := py "```".

(** [l[i]] on a list: [IndexError] out of range. *)
Definition list_index {Row A} (l : list A) (i : nat) : M Row A :=
  match nth_error l i with
  | Some a => ret a
  | None => raise (OtherError (py "list index out of range"))
  end.

(** "Remove markdown code blocks if present" (source lines 135-142),
    applied to the stripped text of the model. *)
Definition remove_code_blocks {Row} (result_text : pystr) : M Row pystr :=
  result_text <-
    (if startswith fence result_text then
       result_text <- list_index (split fence result_text) 1 ;;
       let result_text :=
         if startswith (py "json") result_text
         then slice result_text (Some 4%Z) None
         else result_text in
       ret (strip result_text)
     else ret result_text) ;;
  ret (if endswith fence result_text
       then strip (slice result_text None (Some (-3)%Z))
       else result_text).

(** "extract JSON" (source lines 145-148) *)
Definition extract_json (result_text : pystr) : pystr :=
  if contains (chr "{") result_text && contains (chr "}") result_text then
    let start := find (chr "{") result_text in
    let end_ := (rfind (chr "}") result_text + 1)%Z in
    slice result_text (Some start) (Some end_)
  else result_text.

Definition fallback_description : pystr :=
  py "<p><strong>General Content</strong> shows consistent engag" ++
  py "ement. Based on historical patterns:</p><div style='margin" ++
  py "-top:20px; padding:15px; background:#fff; border:1px solid" ++
  py " #ddd;'><p><strong>Option 1</strong> " ++ endash ++
  py " <em>Monday: 9th December 2025</em> @ <strong>9:00 AM</str" ++
  py "ong><br>Relevancy Score: <strong>85%</strong></p><p style=" ++
  py "'margin-top:15px;'><strong>Option 2</strong> " ++ endash ++
  py " <em>Thursday: 12th December 2025</em> @ <strong>2:00 PM</" ++
  py "strong><br>Relevancy Score: <strong>80%</strong></p></div>".

(** The "fallback response" of source lines 158-161. *)
Definition fallback_result : json :=
  JObject
    [ (py "description", JString fallback_description);
      (py "insights",
       JArray [ JString (py "Historical patterns analyzed");
                JString (py "Weekday mornings recommended");
                JString (py "Thursday afternoons show engagement") ]) ].

(** "parse JSON -- add fallback" (source lines 151-161) *)
Definition parse_or_fallback (result_text : pystr) : json :=
  match json_loads result_text with
  | Some result_json => result_json
  | None => fallback_result
  end.

Definition query_subscription : pystr :=
  join_lines
    [ py "";
      py "            SELECT *";
      py "            FROM `ncau-data-nprod-aitrain.article_data.sub" ++
      py "scription_summary_small`";
      py "        " ].

Definition query_seasonality : pystr :=
  join_lines
    [ py "";
      py "            SELECT *";
      py "            FROM `ncau-data-nprod-aitrain.article_data.sea" ++
      py "sonality_summary_small`";
      py "        " ].

(** The f-string of source lines 84-115, with its five fields filled. *)
Definition build_prompt (title content region subs season : pystr) : pystr :=
  join_lines
    [ py "";
      py "You are an expert publishing strategist analyzing article " ++
      py "engagement data.";
      py "";
      py "ARTICLE TO ANALYZE:";
      py "Title: " ++ title;
      py "Content: " ++ content;
      py "Target Region: " ++ region;
      py "";
      py "DATASET 1 - Subscription Behaviour (user engagement histor" ++
      py "y):";
      subs;
      py "";
      py "DATASET 2 - Seasonality Reference (topic timing performanc" ++
      py "e):";
      season;
      py "";
      py "YOUR TASK:";
      py "Analyze the article topic and determine the BEST day + tim" ++
      py "e to publish based on:";
      py "1. Historical engagement patterns from the datasets";
      py "2. Seasonality trends for similar content";
      py "3. Day-of-week and time-of-day performance";
      py "";
      py "CRITICAL: Respond with ONLY valid JSON in this EXACT forma" ++
      py "t (no markdown, no code blocks):";
      py "";
      py "{";
      py "    " ++ dq ++ py "description" ++ dq ++ py ": " ++ dq ++
      py "<p><strong>[CATEGORY]</strong> shows the highest engagemen" ++
      py "t on <strong>[DAY]</strong>. Additionally, [context from d" ++
      py "ataset]. Based on these trends, the following publishing t" ++
      py "imes carry the highest relevancy:</p><div style='margin-to" ++
      py "p:20px; padding:15px; background:#fff; border:1px solid #d" ++
      py "dd;'><p><strong>Option 1</strong> " ++ endash ++
      py " <em>[Day: Date]</em> @ <strong>[Time]</strong><br>Relevan" ++
      py "cy Score: <strong>[X]%</strong></p><p style='margin-top:15" ++
      py "px;'><strong>Option 2</strong> " ++ endash ++
      py " <em>[Day: Date]</em> @ <strong>[Time]</strong><br>Relevan" ++
      py "cy Score: <strong>[Y]%</strong></p></div>" ++ dq ++ py ",";
      py "    " ++ dq ++ py "insights" ++ dq ++ py ": [";
      py "        " ++ dq ++ py "Data-driven insight 1" ++ dq ++ py ",";
      py "        " ++ dq ++ py "Data-driven insight 2" ++ dq ++ py ",";
      py "    ]";
      py "}";
      py "Ensure you keep the data as consice as possible. each data" ++
      py "-driven insight should contain max 20 words. The descripti" ++
      py "on should contain max 100 words.";
      py "Respond with ONLY the JSON object. No other text.";
      py "" ].

(** [health_check]: the answer to [GET /health]. *)
Definition health_check : response :=
  {| resp_body := Jsonify (JObject [ (py "status", JString (py "healthy")) ]);
     status := 200; headers := [] |}.

(** [request_json.get(key, default)]: only a [dict] has the method. *)
Definition get_field {Row} (request_json : json) (key : pystr) (default : json)
  : M Row json :=
  match request_json with
  | JObject d => ret (dict_get d key default)
  | v =>
      raise (OtherError
               (py "'" ++ type_name v ++ py "' object has no attribute 'get'"))
  end.

(** [content[:1000]] *)
Definition first_1000 {Row} (w : world Row) (content : json) : M Row json :=
  match content with
  | JString s => ret (JString (slice s None (Some 1000%Z)))
  | JArray l => ret (JArray (slice l None (Some 1000%Z)))
  | JObject _ => raise (OtherError (dict_slice_error w))
  | v =>
      raise (OtherError
               (py "'" ++ type_name v ++ py "' object is not subscriptable"))
  end.

(** A replacement field of an f-string: [format(v, '')]. *)
Definition format_value {Row} (w : world Row) (v : json) : pystr :=
  match v with
  | JString s => s
  | _ => py_str w v
  end.

Definition error_body (message : pystr) : body :=
  Jsonify (JObject [ (py "status", JString (py "error"));
                     (py "message", JString message) ]).

Definition success_body (result_json : json) : body :=
  Jsonify (JObject [ (py "status", JString (py "success"));
                     (py "data", result_json) ]).

Definition preflight_headers : list (pystr * pystr) :=
  [ (py "Access-Control-Allow-Origin", py "*");
    (py "Access-Control-Allow-Methods", py "POST, OPTIONS");
    (py "Access-Control-Allow-Headers", py "Content-Type");
    (py "Access-Control-Max-Age", py "3600") ].

Definition json_headers : list (pystr * pystr) :=
  [ (py "Access-Control-Allow-Origin", py "*");
    (py "Content-Type", py "application/json") ].

Definition gemini_call (p : pystr) : generation_call :=
  {| model_name := py "gemini-2.5-pro";
     temperature := py "0.2";
     max_output_tokens := 7000;
     top_p := py "0.9";
     prompt := p |}.

(** The body of the [try] block (source lines 48-167). *)
Definition recommend {Row} (w : world Row) (req : request) : M Row response :=
  let request_json := get_json_silent req in
  if negb (truthy request_json) then
    ret {| resp_body := error_body (py "No JSON data provided");
           status := 400; headers := [] |}
  else
    title <- get_field request_json (py "title") (JString (py "")) ;;
    content <- get_field request_json (py "content") (JString (py "")) ;;
    region <- get_field request_json (py "region") (JString (py "Australia")) ;;
    if negb (truthy title) || negb (truthy content) then
      ret {| resp_body := error_body (py "Title and content are required");
             status := 400; headers := [] |}
    else
      _ <- call EvClient
             (match new_client w with Some e => inl e | None => inr tt end) ;;
      subs_data <- call (EvQuery query_subscription)
                     (run_query w query_subscription) ;;
      season_data <- call (EvQuery query_seasonality)
                       (run_query w query_seasonality) ;;
      content_head <- first_1000 w content ;;
      let prompt :=
        build_prompt (format_value w title) (format_value w content_head)
          (format_value w region)
          (json_dumps w (slice subs_data None (Some 20%Z)))
          (json_dumps w (slice season_data None (Some 20%Z))) in
      text <- call (EvGenerate (gemini_call prompt))
                (generate_content w (gemini_call prompt)) ;;
      result_text <- remove_code_blocks (strip text) ;;
      let result_text := extract_json result_text in
      let result_json := parse_or_fallback result_text in
      ret {| resp_body := success_body result_json;
             status := 200; headers := json_headers |}.

(** [get_publishing_recommendation]: the response, and the calls made to
    the outside while producing it. *)
Definition get_publishing_recommendation {Row} (w : world Row) (req : request)
  : response * list (event Row) :=
  match method req with
  | OPTIONS =>
      ({| resp_body := Text (py ""); status := 204;
          headers := preflight_headers |}, [])
  | POST =>
      match recommend w req with
      | (t, inr resp) => (resp, t)
      | (t, inl (JSONDecodeError m)) =>
          ({| resp_body :=
                error_body (py "Failed to parse AI response: " ++ m);
              status := 500; headers := json_headers |}, t)
      | (t, inl (OtherError m)) =>
          ({| resp_body := error_body m;
              status := 500; headers := json_headers |}, t)
      end
  end.

(* ================================================================== *)
(** ** Vocabulary of the statements *)
(* ================================================================== *)

(** Case analysis on the innermost [match] or [if] of a hypothesis. *)
Ltac split_match H :=
  match type of H with
  | context [match ?x with _ => _ end] =>
      lazymatch x with
      | context [match _ with _ => _ end] => fail
      | _ => destruct x eqn:?
      end
  end.

(** [p] occurs in [s]. *)
Definition occurs (p s : pystr) : Prop := exists a b, s = a ++ p ++ b.

(** The text before the first occurrence of [sep] (all of [s] when there
    is none). *)
Fixpoint before (sep s : pystr) : pystr :=
  match s with
  | [] => []
  | c :: s' => if startswith sep s then [] else c :: before sep s'
  end.

(** A leading [json] is dropped. *)
Definition drop_json_tag (x : pystr) : pystr :=
  if startswith (py "json") x then skipn 4 x else x.

(** For a text that opens with a fence: what lies between that fence and
    the next one, without a leading [json], stripped. *)
Definition first_block (t : pystr) : pystr :=
  strip (drop_json_tag (before fence (skipn 3 t))).

(** The value [remove_code_blocks] returns. *)
Definition unfenced (t : pystr) : pystr :=
  let t1 := if startswith fence t then first_block t else t in
  if endswith fence t1 then strip (firstn (length t1 - 3) t1) else t1.

(** The text handed to [json.loads] for a model output [text]. *)
Definition candidate (text : pystr) : pystr :=
  extract_json (unfenced (strip text)).

Definition is_string (v : json) : bool :=
  match v with
  | JString _ => true
  | _ => false
  end.

(** The shape of a recommendation result: an object with a string under
    [description] and a list of strings under [insights]. *)
Definition has_result_shape (v : json) : bool :=
  match v with
  | JObject d =>
      match dict_lookup (py "description") d, dict_lookup (py "insights") d with
      | Some (JString _), Some (JArray l) => forallb is_string l
      | _, _ => false
      end
  | _ => false
  end.

(** A POST request whose body is an object with a truthy [title], a
    non-empty string [content], and [region] as the handler reads it. *)
Definition well_formed (req : request) (title : json) (content : pystr)
  (region : json) : Prop :=
  method req = POST /\
  exists d,
    json_body req = Some (JObject d) /\
    dict_get d (py "title") (JString (py "")) = title /\
    truthy title = true /\
    dict_lookup (py "content") d = Some (JString content) /\
    content <> [] /\
    dict_get d (py "region") (JString (py "Australia")) = region.

(** The store answers both queries. *)
Definition store_ok {Row} (w : world Row) (subs season : list Row) : Prop :=
  new_client w = None /\
  run_query w query_subscription = inr subs /\
  run_query w query_seasonality = inr season.

(** The fixed text of the prompt template around its five fields: the
    text written before field [i] (after field [i - 1]), read off the
    template by filling one field with a mark and the others with
    nothing. *)
Definition marked (i : nat) : pystr :=
  let m (k : nat) : pystr := if Nat.eqb i k then [0%N] else [] in
  build_prompt (m 0) (m 1) (m 2) (m 3) (m 4).

Definition upto (i : nat) : pystr := before [0%N] (marked i).

Definition segment (i : nat) : pystr :=
  match i with
  | O => upto 0
  | S j => skipn (length (upto j)) (upto i)
  end.

(** The call the handler makes to the model for a well-formed request. *)
Definition model_call {Row} (w : world Row) (title : json) (content : pystr)
  (region : json) (subs season : list Row) : generation_call :=
  gemini_call
    (build_prompt (format_value w title) (firstn 1000 content)
       (format_value w region)
       (json_dumps w (firstn 20 subs))
       (json_dumps w (firstn 20 season))).

(** The prompts handed to the model in a trace. *)
Fixpoint prompts {Row} (t : list (event Row)) : list pystr :=
  match t with
  | [] => []
  | EvGenerate c :: t' => prompt c :: prompts t'
  | _ :: t' => prompts t'
  end.

(** [headers[name]] *)
Fixpoint header (name : pystr) (hs : list (pystr * pystr)) : option pystr :=
  match hs with
  | [] => None
  | (k, v) :: hs' => if str_eqb k name then Some v else header name hs'
  end.

(** The message of the body of an error response. *)
Definition error_message (e : exn) : pystr :=
  match e with
  | JSONDecodeError m => py "Failed to parse AI response: " ++ m
  | OtherError m => m
  end.

(** The response of the two [except] clauses for a raised [e]. *)
Definition error_response (e : exn) : response :=
  {| resp_body := error_body (error_message e);
     status := 500; headers := json_headers |}.

(** The response of a failed validation. *)
Definition bad_request (message : pystr) : response :=
  {| resp_body := error_body message; status := 400; headers := [] |}.

(** The response that carries a result. *)
Definition ok_response (result_json : json) : response :=
  {| resp_body := success_body result_json;
     status := 200; headers := json_headers |}.

(** The key is absent from the dict, or its value is falsy (for a string:
    empty). *)
Definition missing_or_empty (key : pystr) (d : list (pystr * json)) : bool :=
  match dict_lookup key d with
  | None => true
  | Some v => negb (truthy v)
  end.

(** *** A concrete world and concrete requests, for the examples *)

(** A store of rows that are already rendered, a model that answers
    [text] to every prompt. *)
Definition demo_world (text : exn + pystr) : world pystr :=
  {| new_client := None;
     run_query := fun _ => inr [py "{'row': 1}"; py "{'row': 2}"];
     generate_content := fun _ => text;
     json_dumps := fun rows => py "[" ++ concat rows ++ py "]";
     py_str := fun v => type_name v;
     dict_slice_error := py "unhashable type: 'slice'" |}.

(** The same, with a store of 25 rows. *)
Definition demo_rows : list pystr := repeat (py "{'row': 1}") 25.

Definition demo_big_world (text : exn + pystr) : world pystr :=
  {| new_client := None;
     run_query := fun _ => inr demo_rows;
     generate_content := fun _ => text;
     json_dumps := fun rows => py "[" ++ concat rows ++ py "]";
     py_str := fun v => type_name v;
     dict_slice_error := py "unhashable type: 'slice'" |}.

Definition post (v : json) : request :=
  {| method := POST; json_body := Some v |}.

Definition demo_request : request :=
  post (JObject [ (py "title", JString (py "Budget night"));
                  (py "content", JString (py "The treasurer said")) ]).

(** A request with a content of 1200 characters. *)
Definition demo_long_content : pystr := concat (repeat (py "0123456789") 120).

Definition demo_long_request : request :=
  post (JObject [ (py "title", JString (py "Budget night"));
                  (py "content", JString demo_long_content);
                  (py "region", JString (py "NZ")) ]).

(** The example texts of the specification. *)
Definition fenced_example : pystr :=
  py "```json" ++ nl ++ pyq "{'description':'x','insights':[]}" ++ nl ++
  py "```".

(** The same example with the two characters backslash and n where the
    line breaks are. *)
Definition fenced_example_escaped : pystr :=
  py "```json\n" ++ pyq "{'description':'x','insights':[]}" ++ py "\n```".

Definition prose_example : pystr :=
  pyq "Here is the result: {'description':'x','insights':['a']} Hope this helps!".

(** *** The outcomes of the [try] block *)

(** The three fields as the handler reads them from a body [d]. *)
Definition title_of (d : list (pystr * json)) : json :=
  dict_get d (py "title") (JString (py "")).

Definition content_of (d : list (pystr * json)) : json :=
  dict_get d (py "content") (JString (py "")).

Definition region_of (d : list (pystr * json)) : json :=
  dict_get d (py "region") (JString (py "Australia")).

Definition is_object (v : json) : bool :=
  match v with
  | JObject _ => true
  | _ => false
  end.

(** The body is the object [d] and passes both validations. *)
Definition passes (req : request) (d : list (pystr * json)) : Prop :=
  get_json_silent req = JObject d /\
  truthy (title_of d) = true /\ truthy (content_of d) = true.

(** The call to the model for a body [d] whose sliced content is [head]. *)
Definition call_for {Row} (w : world Row) (d : list (pystr * json))
  (head : json) (subs season : list Row) : generation_call :=
  gemini_call
    (build_prompt (format_value w (title_of d)) (format_value w head)
       (format_value w (region_of d))
       (json_dumps w (firstn 20 subs))
       (json_dumps w (firstn 20 season))).

(** The ways through the [try] block: the calls made, and the exception
    raised or the response returned. *)
Inductive try_outcome {Row} (w : world Row) (req : request)
  : list (event Row) -> exn + response -> Prop :=
| TryNoJson :
    truthy (get_json_silent req) = false ->
    try_outcome w req [] (inr (bad_request (py "No JSON data provided")))
| TryNotObject :
    truthy (get_json_silent req) = true ->
    is_object (get_json_silent req) = false ->
    try_outcome w req []
      (inl (OtherError (py "'" ++ type_name (get_json_silent req)
                        ++ py "' object has no attribute 'get'")))
| TryMissing d :
    get_json_silent req = JObject d -> d <> [] ->
    truthy (title_of d) = false \/ truthy (content_of d) = false ->
    try_outcome w req []
      (inr (bad_request (py "Title and content are required")))
| TryClient d e :
    passes req d -> new_client w = Some e ->
    try_outcome w req [EvClient] (inl e)
| TryQuery1 d e :
    passes req d -> new_client w = None ->
    run_query w query_subscription = inl e ->
    try_outcome w req [EvClient; EvQuery query_subscription] (inl e)
| TryQuery2 d e subs :
    passes req d -> new_client w = None ->
    run_query w query_subscription = inr subs ->
    run_query w query_seasonality = inl e ->
    try_outcome w req
      [EvClient; EvQuery query_subscription; EvQuery query_seasonality]
      (inl e)
| TrySlice d e subs season :
    passes req d -> store_ok w subs season ->
    first_1000 w (content_of d) = ([], inl e) ->
    try_outcome w req
      [EvClient; EvQuery query_subscription; EvQuery query_seasonality]
      (inl e)
| TryModel d e head subs season :
    passes req d -> store_ok w subs season ->
    first_1000 w (content_of d) = ([], inr head) ->
    generate_content w (call_for w d head subs season) = inl e ->
    try_outcome w req
      [EvClient; EvQuery query_subscription; EvQuery query_seasonality;
       EvGenerate (call_for w d head subs season)]
      (inl e)
| TryOk d text head subs season :
    passes req d -> store_ok w subs season ->
    first_1000 w (content_of d) = ([], inr head) ->
    generate_content w (call_for w d head subs season) = inr text ->
    try_outcome w req
      [EvClient; EvQuery query_subscription; EvQuery query_seasonality;
       EvGenerate (call_for w d head subs season)]
      (inr (ok_response (parse_or_fallback (candidate text)))).

(** What the two [except] clauses make of the outcome of the block. *)
Definition caught (r : exn + response) : response :=
  match r with
  | inr resp => resp
  | inl e => error_response e
  end.

(** The way taken is decided by the request and the world: facts that
    exclude one another. *)
Ltac clash :=
  repeat match goal with
         | H : passes _ _ |- _ => destruct H as (? & ? & ?)
         | H : store_ok _ _ _ |- _ => destruct H as (? & ? & ?)
         end;
  repeat match goal with
         | H1 : get_json_silent ?r = JObject ?a,
           H2 : get_json_silent ?r = JObject ?b |- _ =>
             assert (a = b) by congruence; subst a; clear H1
         end;
  try congruence;
  try match goal with
      | H1 : get_json_silent ?r = JObject _,
        H2 : is_object (get_json_silent ?r) = false |- _ =>
          rewrite H1 in H2; discriminate
      | H1 : get_json_silent ?r = JObject ?d,
        H2 : truthy (get_json_silent ?r) = false |- _ =>
          rewrite H1 in H2; destruct d; [cbn in *; discriminate|discriminate]
      | H : truthy _ = false \/ truthy _ = false |- _ =>
          destruct H; congruence
      end.

(* ================================================================== *)
(** ** Properties of the string operations *)
(* ================================================================== *)

Lemma str_eqb_eq (a b : pystr) : str_eqb a b = true <-> a = b.
Proof.
  revert b; induction a as [|x a IH]; intros [|y b]; simpl; split;
    try congruence; try reflexivity.
  - rewrite andb_true_iff, N.eqb_eq, IH. intros [-> ->]; reflexivity.
  - intros E; injection E as -> ->. now rewrite N.eqb_refl, (proj2 (IH b)).
Qed.

Lemma startswith_app (p s : pystr) : startswith p (p ++ s) = true.
Proof. induction p as [|x p IH]; simpl; [reflexivity|]. now rewrite N.eqb_refl. Qed.

Lemma startswith_prefix (p s : pystr) :
  startswith p s = true -> exists r, s = p ++ r.
Proof.
  revert s; induction p as [|x p IH]; intros s H; simpl in *.
  - now exists s.
  - destruct s as [|y s]; [discriminate|].
    apply andb_true_iff in H as [Hx Hp]. apply N.eqb_eq in Hx as ->.
    destruct (IH _ Hp) as [r ->]. now exists r.
Qed.

Lemma clamp_nonneg (len : nat) (n : nat) :
  clamp len (Z.of_nat n) = Nat.min n len.
Proof.
  unfold clamp. destruct (Z.ltb_spec (Z.of_nat n) 0); lia.
Qed.

(** [s[:n]] keeps the first [n] elements. *)
Lemma slice_to {A} (s : list A) (n : nat) :
  slice s None (Some (Z.of_nat n)) = firstn n s.
Proof.
  unfold slice. rewrite clamp_nonneg. simpl.
  destruct (Nat.le_ge_cases n (length s)).
  - now rewrite Nat.min_l.
  - rewrite Nat.min_r by assumption. now rewrite !firstn_all2 by lia.
Qed.

(** [s[n:]] drops the first [n] elements. *)
Lemma slice_from {A} (s : list A) (n : nat) :
  slice s (Some (Z.of_nat n)) None = skipn n s.
Proof.
  unfold slice. rewrite clamp_nonneg, firstn_all.
  destruct (Nat.le_ge_cases n (length s)).
  - now rewrite Nat.min_l.
  - rewrite Nat.min_r by assumption. now rewrite !skipn_all2 by lia.
Qed.

(** [s[a:b]] for bounds within the sequence. *)
Lemma slice_between {A} (s : list A) (a b : nat) :
  b <= length s ->
  slice s (Some (Z.of_nat a)) (Some (Z.of_nat b)) = skipn a (firstn b s).
Proof.
  intros Hb. unfold slice. rewrite !clamp_nonneg.
  rewrite (Nat.min_l b) by assumption.
  destruct (Nat.le_ge_cases a (length s)).
  - now rewrite Nat.min_l.
  - rewrite Nat.min_r by assumption.
    rewrite !skipn_all2; try reflexivity; rewrite length_firstn; lia.
Qed.

(* ================================================================== *)
(** ** The decoder never exhausts its budget *)
(* ================================================================== *)

Module DecoderFacts.
Import Decoder.

Lemma skip_ws_le (s : pystr) : length (skip_ws s) <= length s.
Proof.
  induction s as [|c s IH]; simpl; [lia|].
  destruct (is_ws c); simpl; lia.
Qed.

Lemma span_digits_le (s : pystr) : length (snd (span_digits s)) <= length s.
Proof.
  induction s as [|c s IH]; simpl; [lia|].
  destruct (isdigit c); [|simpl; lia].
  destruct (span_digits s); simpl in *; lia.
Qed.

Lemma next_chunk_shorter (s : pystr) :
  match next_chunk s with
  | ChunkEnd r | ChunkChar _ r => length r < length s
  | ChunkBad => True
  end.
Proof.
  unfold next_chunk.
  repeat match goal with
         | |- context [match ?x with _ => _ end] =>
             lazymatch x with
             | context [match _ with _ => _ end] => fail
             | _ => destruct x eqn:?
             end
         end; simpl; auto; lia.
Qed.

Lemma scanstring_shorter (n : nat) :
  forall acc s k r, scanstring n acc s = Parsed k r -> length r < length s.
Proof.
  induction n as [|n IH]; intros acc s k r H; simpl in H; [discriminate|].
  pose proof (next_chunk_shorter s) as Hc.
  destruct (next_chunk s) as [r0|c r0|]; try discriminate.
  - injection H as _ <-. exact Hc.
  - apply IH in H. lia.
Qed.

Lemma scanstring_fuel (n : nat) :
  forall acc s, length s < n -> scanstring n acc s <> Exhausted.
Proof.
  induction n as [|n IH]; intros acc s Hn; [lia|]. simpl.
  pose proof (next_chunk_shorter s) as Hc.
  destruct (next_chunk s) as [r0|c r0|]; try discriminate.
  apply IH. lia.
Qed.

Lemma scanstring_mono (n : nat) :
  forall m acc s, n <= m -> scanstring n acc s <> Exhausted ->
                  scanstring m acc s = scanstring n acc s.
Proof.
  induction n as [|n IH]; intros m acc s Hm H; [now contradiction H|].
  destruct m as [|m]; [lia|]. simpl in *.
  destruct (next_chunk s); try reflexivity.
  apply IH; [lia|assumption].
Qed.

Lemma match_number_shorter (s : pystr) (v : json) (r : pystr) :
  match_number s = Some (v, r) -> length r < length s.
Proof.
  unfold match_number. intros H.
  repeat (split_match H; try discriminate);
    injection H as _ <-;
    repeat match goal with
           | E : (_, _) = (_, _) |- _ => injection E as <- <-
           | E : Some _ = Some _ |- _ => injection E as <- <-
           end;
    repeat match goal with
           | E : span_digits ?x = (_, ?b) |- _ =>
               assert (length b <= length x)
                 by (pose proof (span_digits_le x) as L; rewrite E in L;
                     exact L);
               clear E
           end;
    subst; simpl in *; lia.
Qed.

Section Loops.
Variable scan : pystr -> parsed json.
Hypothesis scan_shrinks : shrinking scan.

Lemma array_items_shorter (n : nat) :
  forall acc s v r,
    array_items scan n acc s = Parsed v r -> length r < length s.
Proof.
  induction n as [|n IH]; intros acc s v r H; simpl in H; [discriminate|].
  destruct (scan s) as [v0 r0| |] eqn:E; try discriminate.
  apply scan_shrinks in E. pose proof (skip_ws_le r0).
  destruct (skip_ws r0) as [|c r1]; [discriminate|]. simpl in *.
  destruct (ischr c "]").
  - injection H as _ <-. lia.
  - destruct (ischr c ","); [|discriminate].
    apply IH in H. pose proof (skip_ws_le r1). lia.
Qed.

Lemma parse_array_shorter (n : nat) (s : pystr) (v : json) (r : pystr) :
  parse_array scan n s = Parsed v r -> length r < length s.
Proof.
  unfold parse_array. pose proof (skip_ws_le s).
  destruct (skip_ws s) as [|c r0].
  - intros E. apply array_items_shorter in E. simpl in E. lia.
  - destruct (ischr c "]").
    + intros E; injection E as _ <-. simpl in *. lia.
    + intros E. apply array_items_shorter in E. lia.
Qed.

Lemma object_members_shorter (n : nat) :
  forall acc s v r,
    object_members scan n acc s = Parsed v r -> length r < length s.
Proof.
  induction n as [|n IH]; intros acc s v r H; [discriminate|].
  cbn [object_members] in H.
  destruct (scanstring (S n) [] s) as [k r0| |] eqn:Ek; try discriminate.
  apply scanstring_shorter in Ek. pose proof (skip_ws_le r0).
  destruct (skip_ws r0) as [|c r1]; [discriminate|].
  destruct (ischr c ":"); [|discriminate].
  pose proof (skip_ws_le r1).
  destruct (scan (skip_ws r1)) as [v0 r2| |] eqn:E; try discriminate.
  apply scan_shrinks in E. pose proof (skip_ws_le r2).
  destruct (skip_ws r2) as [|d r3]; [discriminate|]. simpl in *.
  destruct (ischr d "}").
  - injection H as _ <-. lia.
  - destruct (ischr d ","); [|discriminate].
    pose proof (skip_ws_le r3).
    destruct (skip_ws r3) as [|q r4]; [discriminate|].
    destruct (N.eqb q 34); [|discriminate].
    apply IH in H. simpl in *. lia.
Qed.

Lemma parse_object_shorter (n : nat) (s : pystr) (v : json) (r : pystr) :
  parse_object scan n s = Parsed v r -> length r < length s.
Proof.
  unfold parse_object. pose proof (skip_ws_le s).
  destruct (skip_ws s) as [|c r0]; [discriminate|].
  destruct (ischr c "}").
  - intros E; injection E as _ <-. simpl in *. lia.
  - destruct (N.eqb c 34); [|discriminate].
    intros E. apply object_members_shorter in E. simpl in *. lia.
Qed.

Lemma array_items_fuel (n : nat) :
  forall acc s,
    length s < n ->
    (forall s', length s' <= length s -> scan s' <> Exhausted) ->
    array_items scan n acc s <> Exhausted.
Proof.
  induction n as [|n IH]; intros acc s Hn Hs; [lia|]. simpl.
  pose proof (Hs s (Nat.le_refl _)) as Hx.
  destruct (scan s) as [v0 r0| |] eqn:E; try discriminate; [|congruence].
  apply scan_shrinks in E. pose proof (skip_ws_le r0).
  destruct (skip_ws r0) as [|c r1]; [discriminate|]. simpl in *.
  destruct (ischr c "]"); [discriminate|].
  destruct (ischr c ","); [|discriminate].
  pose proof (skip_ws_le r1).
  apply IH; [lia|]. intros s' Hs'. apply Hs. lia.
Qed.

Lemma parse_array_fuel (n : nat) (s : pystr) :
  length s < n ->
  (forall s', length s' <= length s -> scan s' <> Exhausted) ->
  parse_array scan n s <> Exhausted.
Proof.
  intros Hn Hs. unfold parse_array. pose proof (skip_ws_le s).
  destruct (skip_ws s) as [|c r0].
  - apply array_items_fuel; simpl; [lia|]. intros s' Hs'. apply Hs. simpl in *. lia.
  - destruct (ischr c "]"); [discriminate|].
    apply array_items_fuel; [lia|]. intros s' Hs'. apply Hs. lia.
Qed.

Lemma object_members_fuel (n : nat) :
  forall acc s,
    length s < n ->
    (forall s', length s' <= length s -> scan s' <> Exhausted) ->
    object_members scan n acc s <> Exhausted.
Proof.
  induction n as [|n IH]; intros acc s Hn Hs; [lia|].
  cbn [object_members].
  pose proof (scanstring_fuel (S n) [] s Hn) as Hk.
  destruct (scanstring (S n) [] s) as [k r0| |] eqn:Ek;
    try discriminate; [|congruence].
  apply scanstring_shorter in Ek. pose proof (skip_ws_le r0).
  destruct (skip_ws r0) as [|c r1]; [discriminate|].
  destruct (ischr c ":"); [|discriminate].
  pose proof (skip_ws_le r1). simpl in *.
  assert (scan (skip_ws r1) <> Exhausted) as Hx by (apply Hs; lia).
  destruct (scan (skip_ws r1)) as [v0 r2| |] eqn:E;
    try discriminate; [|congruence].
  apply scan_shrinks in E. pose proof (skip_ws_le r2).
  destruct (skip_ws r2) as [|d r3]; [discriminate|]. simpl in *.
  destruct (ischr d "}"); [discriminate|].
  destruct (ischr d ","); [|discriminate].
  pose proof (skip_ws_le r3).
  destruct (skip_ws r3) as [|q r4]; [discriminate|].
  destruct (N.eqb q 34); [|discriminate]. simpl in *.
  apply IH; [lia|]. intros s' Hs'. apply Hs. lia.
Qed.

Lemma parse_object_fuel (n : nat) (s : pystr) :
  length s < n ->
  (forall s', length s' <= length s -> scan s' <> Exhausted) ->
  parse_object scan n s <> Exhausted.
Proof.
  intros Hn Hs. unfold parse_object. pose proof (skip_ws_le s).
  destruct (skip_ws s) as [|c r0]; [discriminate|].
  destruct (ischr c "}"); [discriminate|].
  destruct (N.eqb c 34); [|discriminate]. simpl in *.
  apply object_members_fuel; [lia|]. intros s' Hs'. apply Hs. lia.
Qed.

Variable scan' : pystr -> parsed json.
Hypothesis scan_extends : extends scan scan'.

Lemma array_items_mono (n : nat) :
  forall m acc s,
    n <= m -> array_items scan n acc s <> Exhausted ->
    array_items scan' m acc s = array_items scan n acc s.
Proof.
  induction n as [|n IH]; intros m acc s Hm H; [now contradiction H|].
  destruct m as [|m]; [lia|]. simpl in *.
  destruct (scan s) as [v0 r0| |] eqn:E; [| |now contradiction H];
    (rewrite scan_extends by congruence); rewrite E; [|reflexivity].
  destruct (skip_ws r0) as [|c r1]; [reflexivity|].
  destruct (ischr c "]"); [reflexivity|].
  destruct (ischr c ","); [|reflexivity].
  apply IH; [lia|assumption].
Qed.

Lemma parse_array_mono (n m : nat) (s : pystr) :
  n <= m -> parse_array scan n s <> Exhausted ->
  parse_array scan' m s = parse_array scan n s.
Proof.
  unfold parse_array. intros Hm H.
  destruct (skip_ws s) as [|c r0]; [now apply array_items_mono|].
  destruct (ischr c "]"); [reflexivity|]. now apply array_items_mono.
Qed.

Lemma object_members_mono (n : nat) :
  forall m acc s,
    n <= m -> object_members scan n acc s <> Exhausted ->
    object_members scan' m acc s = object_members scan n acc s.
Proof.
  induction n as [|n IH]; intros m acc s Hm H; [now contradiction H|].
  destruct m as [|m]; [lia|]. cbn [object_members] in *.
  destruct (scanstring (S n) [] s) as [k r0| |] eqn:Ek;
    [| |now contradiction H];
    (rewrite (scanstring_mono (S n) (S m)) by (congruence || lia));
    rewrite Ek; [|reflexivity].
  destruct (skip_ws r0) as [|c r1]; [reflexivity|].
  destruct (ischr c ":"); [|reflexivity].
  destruct (scan (skip_ws r1)) as [v0 r2| |] eqn:E; [| |now contradiction H];
    (rewrite scan_extends by congruence); rewrite E; [|reflexivity].
  destruct (skip_ws r2) as [|d r3]; [reflexivity|].
  destruct (ischr d "}"); [reflexivity|].
  destruct (ischr d ","); [|reflexivity].
  destruct (skip_ws r3) as [|q r4]; [reflexivity|].
  destruct (N.eqb q 34); [|reflexivity].
  apply IH; [lia|assumption].
Qed.

Lemma parse_object_mono (n m : nat) (s : pystr) :
  n <= m -> parse_object scan n s <> Exhausted ->
  parse_object scan' m s = parse_object scan n s.
Proof.
  unfold parse_object. intros Hm H.
  destruct (skip_ws s) as [|c r0]; [reflexivity|].
  destruct (ischr c "}"); [reflexivity|].
  destruct (N.eqb c 34); [|reflexivity]. now apply object_members_mono.
Qed.

End Loops.

Lemma skipn_shorter {A} (k : nat) (s : list A) :
  0 < k -> s <> [] -> length (skipn k s) < length s.
Proof.
  intros Hk Hs. rewrite length_skipn.
  destruct s; [congruence|cbn [length]; lia].
Qed.

Lemma scan_once_shorter (f : nat) : shrinking (scan_once f).
Proof.
  induction f as [|f IH]; intros s v r H; [discriminate|].
  cbn [scan_once] in H.
  destruct s as [|c s0]; [discriminate|].
  set (s := c :: s0) in *.
  assert (Hk : forall k, 0 < k -> length (skipn k s) < length s)
    by (intros; apply skipn_shorter; [assumption|discriminate]).
  destruct (N.eqb c 34).
  { destruct (scanstring f [] s0) as [k r0| |] eqn:Ek; try discriminate.
    apply scanstring_shorter in Ek. injection H as _ <-. simpl. lia. }
  destruct (ischr c "{").
  { apply parse_object_shorter in H; [simpl; lia|exact IH]. }
  destruct (ischr c "[").
  { apply parse_array_shorter in H; [simpl; lia|exact IH]. }
  destruct (startswith (py "null") s);
    [injection H as _ <-; refine (Hk 4 _); lia|].
  destruct (startswith (py "true") s);
    [injection H as _ <-; refine (Hk 4 _); lia|].
  destruct (startswith (py "false") s);
    [injection H as _ <-; refine (Hk 5 _); lia|].
  destruct (match_number s) as [[v0 r0]|] eqn:En.
  { injection H as _ <-. now apply match_number_shorter in En. }
  destruct (startswith (py "NaN") s);
    [injection H as _ <-; refine (Hk 3 _); lia|].
  destruct (startswith (py "Infinity") s);
    [injection H as _ <-; refine (Hk 8 _); lia|].
  destruct (startswith (py "-Infinity") s);
    [injection H as _ <-; refine (Hk 9 _); lia|].
  discriminate.
Qed.

Lemma scan_once_fuel (f : nat) :
  forall s, length s < f -> scan_once f s <> Exhausted.
Proof.
  induction f as [|f IH]; intros s Hf; [lia|].
  cbn [scan_once].
  destruct s as [|c s0]; [discriminate|].
  set (s := c :: s0) in *. simpl in Hf.
  destruct (N.eqb c 34).
  { pose proof (scanstring_fuel f [] s0) as Hk.
    destruct (scanstring f [] s0); try discriminate.
    exfalso. apply Hk; [lia|reflexivity]. }
  destruct (ischr c "{").
  { apply parse_object_fuel; [apply scan_once_shorter|lia|].
    intros s' Hs'. apply IH. lia. }
  destruct (ischr c "[").
  { apply parse_array_fuel; [apply scan_once_shorter|lia|].
    intros s' Hs'. apply IH. lia. }
  repeat match goal with
         | |- context [match ?x with _ => _ end] =>
             lazymatch x with
             | context [match _ with _ => _ end] => fail
             | _ => destruct x
             end
         end; discriminate.
Qed.

Lemma scan_once_mono (f : nat) :
  forall f', f <= f' -> extends (scan_once f) (scan_once f').
Proof.
  induction f as [|f IH]; intros f' Hf s H; [now contradiction H|].
  destruct f' as [|f']; [lia|]. cbn [scan_once] in *.
  destruct s as [|c s0]; [reflexivity|].
  destruct (N.eqb c 34).
  { rewrite (scanstring_mono f f') by
      (lia || (destruct (scanstring f [] s0); congruence)).
    reflexivity. }
  destruct (ischr c "{").
  { apply parse_object_mono; [apply IH; lia|lia|assumption]. }
  destruct (ischr c "[").
  { apply parse_array_mono; [apply IH; lia|lia|assumption]. }
  reflexivity.
Qed.

(** Any budget above the length of the text gives the answer of
    [json_loads], and that answer is never [Exhausted]. *)
Lemma decode_fuel (s : pystr) (f : nat) :
  length s < f ->
  decode f s = decode (S (length s)) s /\ decode f s <> Exhausted.
Proof.
  intros Hf. unfold decode. pose proof (skip_ws_le s) as Hw.
  assert (H0 : scan_once (S (length s)) (skip_ws s) <> Exhausted)
    by (apply scan_once_fuel; lia).
  rewrite (scan_once_mono (S (length s)) f) by (lia || assumption).
  split; [reflexivity|].
  destruct (scan_once (S (length s)) (skip_ws s)) as [v r| |];
    [destruct (skip_ws r)| |]; congruence.
Qed.

End DecoderFacts.

(** [json_loads] answers [None] only for a text the decoder refuses: with
    any budget above the length of the text the decoder gives the same
    answer, and that answer is a value or an error. *)
Lemma json_loads_fuel (s : pystr) (f : nat) :
  length s < f ->
  startswith [65279%N] s = false ->
  Decoder.decode f s <> Decoder.Exhausted /\
  json_loads s = match Decoder.decode f s with
                 | Decoder.Parsed v _ => Some v
                 | _ => None
                 end.
Proof.
  intros Hf Hbom. destruct (DecoderFacts.decode_fuel s f Hf) as [E Hx].
  split; [exact Hx|]. unfold json_loads. now rewrite Hbom, E.
Qed.

(* ================================================================== *)
(** ** Fences: [split], [before] and occurrences *)
(* ================================================================== *)

Lemma slice_drop_last {A} (s : list A) (k : nat) :
  0 < k -> slice s None (Some (- Z.of_nat k)%Z) = firstn (length s - k) s.
Proof.
  intros Hk. unfold slice, clamp.
  destruct (Z.ltb_spec (- Z.of_nat k) 0); [|lia].
  simpl. f_equal. lia.
Qed.

Lemma split_go_skip (sep : pystr) (k : nat) :
  forall cur s, k <= length s ->
                split_go sep k cur s = split_go sep 0 cur (skipn k s).
Proof.
  induction k as [|k IH]; intros cur s Hk; [reflexivity|].
  destruct s as [|c s]; simpl in *; [lia|]. apply IH. lia.
Qed.

Lemma split_go_head (sep : pystr) :
  forall s cur, exists tl,
    split_go sep 0 cur s = (rev cur ++ before sep s) :: tl.
Proof.
  induction s as [|c s IH]; intros cur.
  - exists []. simpl. now rewrite app_nil_r.
  - cbn [split_go before]. destruct (startswith sep (c :: s)).
    + eexists. now rewrite app_nil_r.
    + destruct (IH (c :: cur)) as [tl ->]. exists tl.
      simpl. now rewrite <- app_assoc.
Qed.

(** The second piece of a split at the fence, for a text that opens with
    the fence. *)
Lemma split_fence_second (r : pystr) :
  nth_error (split fence (fence ++ r)) 1 = Some (before fence r).
Proof.
  assert (E : split fence (fence ++ r) = [] :: split_go fence 0 [] r)
    by reflexivity.
  rewrite E. destruct (split_go_head fence r []) as [tl ->]. reflexivity.
Qed.

Lemma before_prefix (sep s : pystr) :
  exists rest, s = before sep s ++ rest.
Proof.
  induction s as [|c s [rest IH]]; [now exists []|].
  cbn [before]. destruct (startswith sep (c :: s)).
  - now exists (c :: s).
  - exists rest. simpl. now rewrite <- IH.
Qed.

Lemma startswith_app_l (p a b : pystr) :
  startswith p a = true -> startswith p (a ++ b) = true.
Proof.
  intros H. apply startswith_prefix in H as [r ->].
  rewrite <- app_assoc. apply startswith_app.
Qed.

Lemma before_no_occurrence (sep s : pystr) :
  sep <> [] -> ~ occurs sep (before sep s).
Proof.
  intros Hsep. induction s as [|c s IH]; intros (a & b & E).
  - destruct a; [destruct sep|]; simpl in E; congruence.
  - cbn [before] in E. destruct (startswith sep (c :: s)) eqn:Es.
    + destruct a; [destruct sep|]; simpl in E; congruence.
    + destruct a as [|x a].
      * destruct (before_prefix sep s) as [rest Hr].
        assert (startswith sep (c :: s) = true); [|congruence].
        rewrite Hr, app_comm_cons, E. simpl.
        rewrite <- app_assoc. apply startswith_app.
      * injection E as _ E. apply IH. now exists a, b.
Qed.

Lemma occurs_inside (p x a b : pystr) : occurs p x -> occurs p (a ++ x ++ b).
Proof.
  intros (u & v & ->). exists (a ++ u), (v ++ b).
  now rewrite <- !app_assoc.
Qed.

Lemma lstrip_suffix (s : pystr) : exists a, s = a ++ lstrip s.
Proof.
  induction s as [|c s [a IH]]; [now exists []|]. simpl.
  destruct (isspace c); [|now exists []].
  exists (c :: a). simpl. now rewrite <- IH.
Qed.

Lemma rstrip_prefix (s : pystr) : exists b, s = rstrip s ++ b.
Proof.
  unfold rstrip. destruct (lstrip_suffix (rev s)) as [a E].
  exists (rev a). rewrite <- rev_app_distr, <- E. now rewrite rev_involutive.
Qed.

Lemma strip_inside (s : pystr) : exists a b, s = a ++ strip s ++ b.
Proof.
  unfold strip. destruct (lstrip_suffix s) as [a Ea].
  destruct (rstrip_prefix (lstrip s)) as [b Eb].
  exists a, b. now rewrite <- Eb.
Qed.

Lemma endswith_suffix (p s : pystr) :
  endswith p s = true -> exists a, s = a ++ p.
Proof.
  unfold endswith. intros H. apply startswith_prefix in H as [r E].
  exists (rev r). apply (f_equal (@rev _)) in E.
  now rewrite rev_involutive, rev_app_distr, rev_involutive in E.
Qed.

Lemma no_fence_no_end (s : pystr) : ~ occurs fence s -> endswith fence s = false.
Proof.
  intros H. destruct (endswith fence s) eqn:E; [|reflexivity].
  contradiction H. apply endswith_suffix in E as [a ->].
  exists a, []. now rewrite app_nil_r.
Qed.

Lemma first_block_no_fence (t : pystr) : ~ occurs fence (first_block t).
Proof.
  unfold first_block. intros H.
  destruct (strip_inside (drop_json_tag (before fence (skipn 3 t))))
    as (a & b & E).
  apply (occurs_inside _ _ a b) in H. rewrite <- E in H. clear E a b.
  apply (before_no_occurrence fence (skipn 3 t)); [discriminate|].
  unfold drop_json_tag in H.
  destruct (startswith (py "json") (before fence (skipn 3 t))); [|assumption].
  rewrite <- (firstn_skipn 4 (before fence (skipn 3 t))).
  rewrite <- (app_nil_r (skipn 4 _)). now apply occurs_inside.
Qed.

(** [remove_code_blocks] raises nothing and makes no call: it returns
    [unfenced]. *)
Lemma remove_code_blocks_ret {Row} (t : pystr) :
  @remove_code_blocks Row t = ret (unfenced t).
Proof.
  unfold remove_code_blocks, unfenced.
  change (-3)%Z with (- Z.of_nat 3)%Z. change 4%Z with (Z.of_nat 4).
  destruct (startswith fence t) eqn:Ef.
  - destruct (startswith_prefix _ _ Ef) as [r ->].
    unfold list_index. rewrite split_fence_second.
    unfold first_block, drop_json_tag.
    change (skipn 3 (fence ++ r)) with r.
    cbn [bind ret app]. rewrite slice_from.
    f_equal. f_equal. now rewrite slice_drop_last by lia.
  - cbn [bind ret app]. f_equal. f_equal.
    now rewrite slice_drop_last by lia.
Qed.

(* ================================================================== *)
(** ** Braces: [find], [rfind] and the extraction *)
(* ================================================================== *)

Lemma find_app (c : char) (pre post : pystr) :
  contains c pre = false ->
  find c (pre ++ c :: post) = Z.of_nat (length pre).
Proof.
  induction pre as [|x pre IH]; simpl; intros H.
  - now rewrite N.eqb_refl.
  - apply orb_false_iff in H as [Hx Hp]. rewrite Hx, (IH Hp).
    destruct (Z.ltb_spec (Z.of_nat (length pre)) 0); lia.
Qed.

Lemma rfind_absent (c : char) (s : pystr) :
  contains c s = false -> rfind c s = (-1)%Z.
Proof.
  induction s as [|x s IH]; simpl; intros H; [reflexivity|].
  apply orb_false_iff in H as [Hx Hs]. now rewrite (IH Hs), Hx.
Qed.

Lemma rfind_app (c : char) (pre post : pystr) :
  contains c post = false ->
  rfind c (pre ++ c :: post) = Z.of_nat (length pre).
Proof.
  intros H. induction pre as [|x pre IH]; simpl.
  - now rewrite (rfind_absent _ _ H), N.eqb_refl.
  - rewrite IH. destruct (Z.ltb_spec (Z.of_nat (length pre)) 0); lia.
Qed.

Lemma contains_app (c : char) (a b : pystr) :
  contains c (a ++ b) = contains c a || contains c b.
Proof.
  induction a as [|x a IH]; simpl; [reflexivity|].
  now rewrite IH, orb_assoc.
Qed.

Lemma first_occurrence (c : char) (s : pystr) :
  contains c s = true ->
  exists pre post, s = pre ++ c :: post /\ contains c pre = false.
Proof.
  induction s as [|x s IH]; simpl; intros H; [discriminate|].
  destruct (N.eqb_spec x c) as [->|Hx].
  - now exists [], s.
  - destruct (IH H) as (pre & post & -> & Hp).
    exists (x :: pre), post. split; [reflexivity|]. simpl.
    rewrite Hp. now apply N.eqb_neq in Hx as ->.
Qed.

Lemma last_occurrence (c : char) (s : pystr) :
  contains c s = true ->
  exists pre post, s = pre ++ c :: post /\ contains c post = false.
Proof.
  induction s as [|x s IH]; simpl; intros H; [discriminate|].
  destruct (contains c s) eqn:Hs.
  - destruct (IH eq_refl) as (pre & post & -> & Hp).
    now exists (x :: pre), post.
  - rewrite orb_false_r in H. apply N.eqb_eq in H as ->. now exists [], s.
Qed.

Lemma nth_error_middle {A} (pre post : list A) (c : A) :
  nth_error (pre ++ c :: post) (length pre) = Some c.
Proof. induction pre; simpl; auto. Qed.

Lemma firstn_middle {A} (pre post : list A) : firstn (length pre) (pre ++ post) = pre.
Proof.
  rewrite firstn_app, Nat.sub_diag, firstn_all. simpl. apply app_nil_r.
Qed.

Lemma skipn_middle {A} (pre post : list A) : skipn (length pre) (pre ++ post) = post.
Proof.
  rewrite skipn_app, Nat.sub_diag, skipn_all. reflexivity.
Qed.

(** The extraction, for a text with a first [{] at index [i] and a last
    [}] at index [j]. *)
Lemma extract_json_slice (t : pystr) (i j : nat) :
  contains (chr "{") t = true -> contains (chr "}") t = true ->
  find (chr "{") t = Z.of_nat i -> rfind (chr "}") t = Z.of_nat j ->
  j < length t ->
  extract_json t = skipn i (firstn (S j) t).
Proof.
  intros Ho Hc Hi Hj Hlen. unfold extract_json.
  rewrite Ho, Hc, Hi, Hj. cbn [andb].
  replace (Z.of_nat j + 1)%Z with (Z.of_nat (S j)) by lia.
  apply slice_between. lia.
Qed.

(* ================================================================== *)
(** ** The path of a well-formed request *)
(* ================================================================== *)

Lemma dict_get_lookup (d : list (pystr * json)) (k : pystr) (v dflt : json) :
  dict_lookup k d = Some v -> dict_get d k dflt = v.
Proof. unfold dict_get. now intros ->. Qed.

(** A well-formed request against a store that answers reaches the model
    with one prompt, and the response is decided by the model's answer. *)
Lemma recommend_reaches_model {Row} (w : world Row) (req : request)
  (title : json) (content : pystr) (region : json) (subs season : list Row) :
  well_formed req title content region ->
  store_ok w subs season ->
  get_publishing_recommendation w req =
    (match generate_content w (model_call w title content region subs season)
     with
     | inr text => ok_response (parse_or_fallback (candidate text))
     | inl e => error_response e
     end,
     [EvClient; EvQuery query_subscription; EvQuery query_seasonality;
      EvGenerate (model_call w title content region subs season)]).
Proof.
  intros (Hm & d & Hb & Ht & Htt & Hc & Hne & Hr) (Hcl & Hq1 & Hq2).
  unfold get_publishing_recommendation, recommend, get_json_silent.
  rewrite Hm, Hb.
  assert (Hd : truthy (JObject d) = true)
    by (destruct d; [discriminate|reflexivity]).
  rewrite Hd. cbn [negb get_field bind ret app].
  rewrite Ht, Hr, (dict_get_lookup _ _ _ _ Hc), Htt.
  assert (Hcon : truthy (JString content) = true)
    by (destruct content; [congruence|reflexivity]).
  rewrite Hcon, Hcl, Hq1, Hq2.
  cbn [negb orb call bind ret app first_1000 format_value].
  change 1000%Z with (Z.of_nat 1000). change 20%Z with (Z.of_nat 20).
  rewrite !slice_to. fold (model_call w title content region subs season).
  destruct (generate_content w (model_call w title content region subs season))
    as [e|text].
  - destruct e; reflexivity.
  - rewrite remove_code_blocks_ret. cbn [bind ret app]. reflexivity.
Qed.

(* ================================================================== *)
(** ** Preflight and validation *)
(* ================================================================== *)

(** C9: an OPTIONS request is answered with status 204, an empty body and
    the cross-origin headers (any origin, POST allowed, preflight cached
    for 3600 seconds), whatever the body and the world are, and no call
    to the store or to the model is made. *)
Theorem preflight_response {Row} (w : world Row) (b : option json) :
  get_publishing_recommendation w {| method := OPTIONS; json_body := b |} =
    ({| resp_body := Text (py ""); status := 204;
        headers := preflight_headers |}, [])
  /\ header (py "Access-Control-Allow-Origin") preflight_headers
     = Some (py "*")
  /\ header (py "Access-Control-Allow-Methods") preflight_headers
     = Some (py "POST, OPTIONS")
  /\ header (py "Access-Control-Max-Age") preflight_headers
     = Some (py "3600").
Proof. repeat split. Qed.

(** C10: a POST request whose body is a falsy JSON value, or that has no
    decodable JSON body, is answered with status 400 and the message
    "No JSON data provided", before any field is read and without any
    call to the outside; the empty object, the empty array, 0, false and
    null are such bodies, and the message is not the one of the
    title-and-content check. *)
Theorem no_json_data {Row} (w : world Row) (req : request) :
  method req = POST ->
  truthy (get_json_silent req) = false ->
  get_publishing_recommendation w req
    = (bad_request (py "No JSON data provided"), [])
  /\ Forall (fun b => truthy (get_json_silent
                                {| method := POST; json_body := b |}) = false)
       [ None; Some (JObject []); Some (JArray []); Some (JInt 0);
         Some (JBool false); Some JNull ]
  /\ py "No JSON data provided" <> py "Title and content are required".
Proof.
  intros Hm Hf. split; [|split].
  - unfold get_publishing_recommendation, recommend. now rewrite Hm, Hf.
  - repeat constructor.
  - discriminate.
Qed.

Lemma no_json_data_witness :
  method (post (JObject [])) = POST /\
  truthy (get_json_silent (post (JObject []))) = false /\
  get_publishing_recommendation (demo_world (inr [])) (post (JObject []))
    = (bad_request (py "No JSON data provided"), []).
Proof.
  split; [reflexivity|]. split; [reflexivity|].
  apply (no_json_data (demo_world (inr [])) (post (JObject []))); reflexivity.
Defined.

Lemma missing_or_empty_falsy (key : pystr) (d : list (pystr * json)) :
  missing_or_empty key d = true ->
  truthy (dict_get d key (JString (py ""))) = false.
Proof.
  unfold missing_or_empty, dict_get.
  destruct (dict_lookup key d); [|reflexivity].
  now intros H%negb_true_iff.
Qed.

(** C4, as the code has it: a POST request whose body is a non-empty JSON
    object in which [title] or [content] is absent or falsy (an empty
    string, for instance) is answered with status 400, the status field
    "error" and the shared message "Title and content are required"; the
    two fields are read first and tested together, and no call to the
    outside is made. *)
Theorem title_and_content_required {Row} (w : world Row) (req : request)
  (d : list (pystr * json)) :
  method req = POST ->
  json_body req = Some (JObject d) ->
  d <> [] ->
  missing_or_empty (py "title") d || missing_or_empty (py "content") d = true ->
  get_publishing_recommendation w req
    = ({| resp_body :=
            Jsonify (JObject
                       [ (py "status", JString (py "error"));
                         (py "message",
                          JString (py "Title and content are required")) ]);
          status := 400; headers := [] |}, []).
Proof.
  intros Hm Hb Hd Hmiss.
  unfold get_publishing_recommendation, recommend, get_json_silent.
  rewrite Hm, Hb.
  assert (Ht : truthy (JObject d) = true)
    by (destruct d; [congruence|reflexivity]).
  rewrite Ht. cbn [negb get_field bind ret app].
  apply orb_true_iff in Hmiss as [H|H];
    apply missing_or_empty_falsy in H; rewrite H; cbn [negb orb];
    [|rewrite orb_true_r]; reflexivity.
Qed.

Lemma title_and_content_required_witness :
  missing_or_empty (py "title")
    [ (py "title", JString (py "")); (py "region", JString (py "NZ")) ]
  || missing_or_empty (py "content")
       [ (py "title", JString (py "")); (py "region", JString (py "NZ")) ]
  = true /\
  get_publishing_recommendation (demo_world (inr []))
    (post (JObject [ (py "title", JString (py ""));
                     (py "region", JString (py "NZ")) ]))
  = (bad_request (py "Title and content are required"), []).
Proof.
  split; [reflexivity|].
  apply (title_and_content_required (demo_world (inr [])) _
           [ (py "title", JString (py ""));
             (py "region", JString (py "NZ")) ]);
    [reflexivity|reflexivity|discriminate|reflexivity].
Defined.

(** C4 as stated fails: the empty object has neither [title] nor
    [content], and its answer carries the message of the earlier check,
    which names no field; a body that is a JSON array has no [title]
    either, and its answer is a 500. *)
Lemma missing_title_other_answers :
  fst (get_publishing_recommendation (demo_world (inr [])) (post (JObject [])))
    = bad_request (py "No JSON data provided")
  /\ fst (get_publishing_recommendation (demo_world (inr []))
            (post (JArray [JInt 1])))
     = error_response
         (OtherError (py "'list' object has no attribute 'get'")).
Proof. split; reflexivity. Qed.

(* ================================================================== *)
(** ** The result: parsed value or fallback *)
(* ================================================================== *)

Lemma fallback_has_shape : has_result_shape fallback_result = true.
Proof. reflexivity. Qed.

Lemma demo_request_well_formed :
  well_formed demo_request (JString (py "Budget night"))
    (py "The treasurer said") (JString (py "Australia")).
Proof.
  split; [reflexivity|]. eexists. split; [reflexivity|].
  repeat split; discriminate.
Qed.

Lemma demo_store_ok (text : exn + pystr) :
  store_ok (demo_world text) [py "{'row': 1}"; py "{'row': 2}"]
    [py "{'row': 1}"; py "{'row': 2}"].
Proof. repeat split. Qed.






(* ================================================================== *)
(** ** Error responses *)
(* ================================================================== *)






(* ================================================================== *)
(** ** The prompt *)
(* ================================================================== *)

(** The template is six fixed texts around its five fields. *)
Lemma build_prompt_segments (title content region subs season : pystr) :
  build_prompt title content region subs season =
    segment 0 ++ title ++ segment 1 ++ content ++ segment 2 ++ region ++
    segment 3 ++ subs ++ segment 4 ++ season ++ segment 5.
Proof. vm_compute. reflexivity. Qed.

Example segment_1 : segment 1 = nl ++ py "Content: ".
Proof. reflexivity. Qed.

Example segment_2 : segment 2 = nl ++ py "Target Region: ".
Proof. reflexivity. Qed.

(** C7: for a well-formed request whose [content] is longer than 1000
    characters, the prompt handed to the model is the template with the
    title and the region in full and exactly the first 1000 characters of
    the content; a request with the same title and region and a content
    that agrees on its first 1000 characters yields the same prompt. *)
Theorem content_capped_at_1000 {Row} (w : world Row) (req : request)
  (title : json) (content : pystr) (region : json) (subs season : list Row) :
  well_formed req title content region ->
  store_ok w subs season ->
  1000 < length content ->
  prompts (snd (get_publishing_recommendation w req)) =
    [ segment 0 ++ format_value w title ++
      segment 1 ++ firstn 1000 content ++
      segment 2 ++ format_value w region ++
      segment 3 ++ json_dumps w (firstn 20 subs) ++
      segment 4 ++ json_dumps w (firstn 20 season) ++ segment 5 ]
  /\ length (firstn 1000 content) = 1000
  /\ (forall s, format_value w (JString s) = s)
  /\ (forall req' content',
        well_formed req' title content' region ->
        firstn 1000 content' = firstn 1000 content ->
        prompts (snd (get_publishing_recommendation w req'))
        = prompts (snd (get_publishing_recommendation w req))).
Proof.
  intros Hreq Hstore Hlen.
  rewrite (recommend_reaches_model w req title content region subs season
             Hreq Hstore).
  cbn [snd prompts model_call gemini_call prompt].
  split; [now rewrite build_prompt_segments|].
  split; [rewrite length_firstn; lia|].
  split; [reflexivity|].
  intros req' content' Hreq' Hsame.
  rewrite (recommend_reaches_model w req' title content' region subs season
             Hreq' Hstore).
  cbn [snd prompts model_call gemini_call prompt]. now rewrite Hsame.
Qed.

(** C8: for a well-formed request, the two queries are run once each, in
    order, before the model is called; each result set is taken whole,
    and the prompt holds the serialisation of its first 20 rows at most,
    in the order the store returned them; two stores whose result sets
    agree on their first 20 rows yield the same prompt. *)
Theorem datasets_capped_at_20 {Row} (w : world Row) (req : request)
  (title : json) (content : pystr) (region : json) (subs season : list Row) :
  well_formed req title content region ->
  store_ok w subs season ->
  snd (get_publishing_recommendation w req) =
    [ EvClient; EvQuery query_subscription; EvQuery query_seasonality;
      EvGenerate
        (gemini_call
           (segment 0 ++ format_value w title ++
            segment 1 ++ firstn 1000 content ++
            segment 2 ++ format_value w region ++
            segment 3 ++ json_dumps w (firstn 20 subs) ++
            segment 4 ++ json_dumps w (firstn 20 season) ++ segment 5)) ]
  /\ length (firstn 20 subs) <= 20 /\ length (firstn 20 season) <= 20
  /\ (exists rest, subs = firstn 20 subs ++ rest)
  /\ (exists rest, season = firstn 20 season ++ rest)
  /\ (forall (w' : world Row) subs' season',
        store_ok w' subs' season' ->
        json_dumps w' = json_dumps w -> py_str w' = py_str w ->
        firstn 20 subs' = firstn 20 subs ->
        firstn 20 season' = firstn 20 season ->
        prompts (snd (get_publishing_recommendation w' req))
        = prompts (snd (get_publishing_recommendation w req))).
Proof.
  intros Hreq Hstore.
  rewrite (recommend_reaches_model w req title content region subs season
             Hreq Hstore).
  cbn [snd]. unfold model_call at 1.
  split; [now rewrite build_prompt_segments|].
  split; [apply firstn_le_length|]. split; [apply firstn_le_length|].
  split; [exists (skipn 20 subs); now rewrite firstn_skipn|].
  split; [exists (skipn 20 season); now rewrite firstn_skipn|].
  intros w' subs' season' Hstore' Hd Hs H1 H2.
  rewrite (recommend_reaches_model w' req title content region subs' season'
             Hreq Hstore').
  cbn [snd prompts model_call gemini_call prompt].
  unfold format_value. now rewrite Hd, Hs, H1, H2.
Qed.

Lemma demo_long_request_well_formed :
  well_formed demo_long_request (JString (py "Budget night"))
    demo_long_content (JString (py "NZ")).
Proof.
  split; [reflexivity|]. eexists. split; [reflexivity|].
  repeat split; discriminate.
Qed.

Lemma content_capped_at_1000_witness :
  1000 < length demo_long_content /\
  length (firstn 1000 demo_long_content) = 1000.
Proof.
  assert (H : 1000 < length demo_long_content) by (vm_compute; lia).
  split; [exact H|].
  exact (proj1 (proj2
           (content_capped_at_1000 (demo_world (inr (py "{}")))
              demo_long_request _ _ _ _ _
              demo_long_request_well_formed (demo_store_ok _) H))).
Defined.

Lemma demo_big_store_ok (text : exn + pystr) :
  store_ok (demo_big_world text) demo_rows demo_rows.
Proof. repeat split. Qed.

Lemma datasets_capped_at_20_witness :
  length demo_rows = 25 /\
  prompts (snd (get_publishing_recommendation (demo_big_world (inr (py "{}")))
                  demo_request))
  = [ segment 0 ++ py "Budget night" ++
      segment 1 ++ py "The treasurer said" ++
      segment 2 ++ py "Australia" ++
      segment 3 ++ py "[" ++ concat (firstn 20 demo_rows) ++ py "]" ++
      segment 4 ++ py "[" ++ concat (firstn 20 demo_rows) ++ py "]" ++
      segment 5 ].
Proof.
  split; [reflexivity|].
  rewrite (proj1
             (datasets_capped_at_20 (demo_big_world (inr (py "{}")))
                demo_request _ _ _ _ _
                demo_request_well_formed (demo_big_store_ok _))).
  vm_compute. reflexivity.
Defined.

(* ================================================================== *)
(** ** Cleaning the text of the model *)
(* ================================================================== *)

(** C5, as the code has it: when the stripped text of the model opens
    with a fence, what is kept is the text between that fence and the
    next one (or the end), without a leading [json] (the one language tag
    that is recognised) and stripped, so that no fence is left in it;
    when the text does not open with a fence but ends with one, that
    trailing fence is cut off and the rest stripped.  For the fenced
    example of the specification the parsed result is the object with
    description "x" and no insights. *)
Theorem code_fences_removed {Row} :
  (forall t, startswith fence t = true ->
     @remove_code_blocks Row t
       = ret (strip (drop_json_tag (before fence (skipn 3 t))))
     /\ ~ occurs fence (strip (drop_json_tag (before fence (skipn 3 t)))))
  /\ (forall t, startswith fence t = false -> endswith fence t = true ->
        @remove_code_blocks Row t = ret (strip (firstn (length t - 3) t)))
  /\ @remove_code_blocks Row (strip fenced_example)
     = ret (pyq "{'description':'x','insights':[]}")
  /\ json_loads (candidate fenced_example)
     = Some (JObject [ (py "description", JString (py "x"));
                       (py "insights", JArray []) ])
  /\ json_loads (candidate fenced_example_escaped)
     = Some (JObject [ (py "description", JString (py "x"));
                       (py "insights", JArray []) ]).
Proof.
  split; [|split; [|repeat split; reflexivity]].
  - intros t Ht. rewrite remove_code_blocks_ret. unfold unfenced.
    rewrite Ht. fold (first_block t).
    pose proof (first_block_no_fence t) as Hno.
    now rewrite (no_fence_no_end _ Hno).
  - intros t Hs He. rewrite remove_code_blocks_ret. unfold unfenced.
    now rewrite Hs, He.
Qed.

Lemma code_fences_removed_witness :
  startswith fence (py "```json {} ```") = true /\
  @remove_code_blocks unit (py "```json {} ```") = ret (py "{}").
Proof.
  split; [reflexivity|].
  rewrite (proj1 (proj1 (@code_fences_removed unit) (py "```json {} ```")
                    eq_refl)).
  reflexivity.
Defined.

(** C5 as stated fails for a language tag other than [json]: the tag
    stays in the text. *)
Lemma other_language_tag_stays :
  @remove_code_blocks unit (py "```python" ++ nl ++ py "{}" ++ nl ++ py "```")
  = ret (py "python" ++ nl ++ py "{}").
Proof. reflexivity. Qed.

(** C6: when the text has both an opening and a closing brace, the
    candidate is the slice from the first opening brace to the last
    closing brace, both included; for a text made of prose without an
    opening brace, a braced part, and prose without a closing brace, it is
    exactly the braced part.  For the prose example of the specification
    it is the JSON object alone. *)
Theorem extraction_first_to_last_brace :
  (forall t,
     contains (chr "{") t = true -> contains (chr "}") t = true ->
     exists i j,
       find (chr "{") t = Z.of_nat i /\ rfind (chr "}") t = Z.of_nat j
       /\ nth_error t i = Some (chr "{")
       /\ contains (chr "{") (firstn i t) = false
       /\ nth_error t j = Some (chr "}")
       /\ contains (chr "}") (skipn (S j) t) = false
       /\ extract_json t = skipn i (firstn (S j) t))
  /\ (forall pre mid post,
        contains (chr "{") pre = false -> contains (chr "}") post = false ->
        extract_json (pre ++ chr "{" :: mid ++ chr "}" :: post)
        = chr "{" :: mid ++ [chr "}"])
  /\ extract_json prose_example
     = pyq "{'description':'x','insights':['a']}"
  /\ candidate prose_example = pyq "{'description':'x','insights':['a']}".
Proof.
  split; [|split; [|split; reflexivity]].
  - intros t Ho Hc.
    destruct (first_occurrence _ _ Ho) as (p1 & q1 & E1 & H1).
    destruct (last_occurrence _ _ Hc) as (p2 & q2 & E2 & H2).
    exists (length p1), (length p2).
    assert (Hi : find (chr "{") t = Z.of_nat (length p1))
      by (rewrite E1; now apply find_app).
    assert (Hj : rfind (chr "}") t = Z.of_nat (length p2))
      by (rewrite E2; now apply rfind_app).
    split; [exact Hi|]. split; [exact Hj|].
    split; [rewrite E1; apply nth_error_middle|].
    split; [rewrite E1 at 1; now rewrite firstn_middle|].
    split; [rewrite E2; apply nth_error_middle|].
    split.
    + rewrite E2 at 1.
      change (p2 ++ chr "}" :: q2) with (p2 ++ [chr "}"] ++ q2).
      rewrite app_assoc.
      replace (S (length p2)) with (length (p2 ++ [chr "}"]))
        by (rewrite length_app; simpl; lia).
      now rewrite skipn_middle.
    + apply extract_json_slice; try assumption.
      rewrite E2, length_app. cbn [length]. lia.
  - intros pre mid post Hpre Hpost.
    set (t := pre ++ chr "{" :: mid ++ chr "}" :: post).
    assert (Et : t = (pre ++ chr "{" :: mid) ++ chr "}" :: post)
      by (unfold t; now rewrite <- app_assoc).
    assert (Ho : contains (chr "{") t = true)
      by (unfold t; rewrite contains_app; simpl; apply orb_true_r).
    assert (Hc : contains (chr "}") t = true)
      by (rewrite Et, contains_app; simpl; apply orb_true_r).
    rewrite (extract_json_slice t (length pre) (length (pre ++ chr "{" :: mid))).
    + rewrite Et at 1.
      change ((pre ++ chr "{" :: mid) ++ chr "}" :: post)
        with ((pre ++ chr "{" :: mid) ++ [chr "}"] ++ post).
      rewrite app_assoc.
      replace (S (length (pre ++ chr "{" :: mid)))
        with (length ((pre ++ chr "{" :: mid) ++ [chr "}"]))
        by (rewrite !length_app; simpl; lia).
      rewrite firstn_middle, <- !app_assoc, skipn_middle. reflexivity.
    + exact Ho.
    + exact Hc.
    + unfold t. now apply find_app.
    + rewrite Et. now apply rfind_app.
    + rewrite Et, !length_app. cbn [length]. lia.
Qed.

Lemma extraction_first_to_last_brace_witness :
  contains (chr "{") (py "} noise { 1 } more {") = true /\
  contains (chr "}") (py "} noise { 1 } more {") = true /\
  exists i j,
    find (chr "{") (py "} noise { 1 } more {") = Z.of_nat i
    /\ rfind (chr "}") (py "} noise { 1 } more {") = Z.of_nat j
    /\ nth_error (py "} noise { 1 } more {") i = Some (chr "{")
    /\ contains (chr "{") (firstn i (py "} noise { 1 } more {")) = false
    /\ nth_error (py "} noise { 1 } more {") j = Some (chr "}")
    /\ contains (chr "}") (skipn (S j) (py "} noise { 1 } more {")) = false
    /\ extract_json (py "} noise { 1 } more {")
       = skipn i (firstn (S j) (py "} noise { 1 } more {")).
Proof.
  split; [reflexivity|]. split; [reflexivity|].
  apply (proj1 extraction_first_to_last_brace); reflexivity.
Defined.

(* ================================================================== *)
(** ** Every way through the handler *)
(* ================================================================== *)

Lemma handler_post {Row} (w : world Row) (req : request) :
  method req = POST ->
  get_publishing_recommendation w req
  = (caught (snd (recommend w req)), fst (recommend w req)).
Proof.
  intros Hm. unfold get_publishing_recommendation. rewrite Hm.
  destruct (recommend w req) as [t [[m|m]|resp]]; reflexivity.
Qed.

Lemma first_1000_pure {Row} (w : world Row) (content : json) :
  exists r, first_1000 w content = ([], r).
Proof. destruct content; eexists; reflexivity. Qed.

(** The [try] block takes one of the nine ways of [try_outcome]. *)
Lemma recommend_outcome {Row} (w : world Row) (req : request) :
  try_outcome w req (fst (recommend w req)) (snd (recommend w req)).
Proof.
  unfold recommend.
  destruct (truthy (get_json_silent req)) eqn:Hb; cbn [negb];
    [|now apply TryNoJson].
  destruct (is_object (get_json_silent req)) eqn:Ho.
  2:{ assert (Hg : forall key dflt,
                @get_field Row (get_json_silent req) key dflt
                = raise (OtherError
                           (py "'" ++ type_name (get_json_silent req)
                            ++ py "' object has no attribute 'get'")))
        by (intros; destruct (get_json_silent req);
            try discriminate; reflexivity).
      rewrite Hg. cbn [bind raise fst snd]. now apply TryNotObject. }
  destruct (get_json_silent req) as [| | | | | |d] eqn:Eb; try discriminate.
  cbn [get_field bind ret app].
  fold (title_of d) (content_of d) (region_of d).
  assert (Hd : d <> []) by (destruct d; [discriminate|congruence]).
  destruct (truthy (title_of d)) eqn:Ht; cbn [negb orb];
    [|apply (TryMissing w req d); auto].
  destruct (truthy (content_of d)) eqn:Hc; cbn [negb];
    [|apply (TryMissing w req d); auto].
  assert (Hp : passes req d) by (repeat split; assumption).
  destruct (new_client w) as [e|] eqn:Hcl; cbn [call bind app fst snd];
    [now apply (TryClient w req d)|].
  destruct (run_query w query_subscription) as [e|subs] eqn:Hq1;
    cbn [call bind app fst snd]; [now apply (TryQuery1 w req d)|].
  destruct (run_query w query_seasonality) as [e|season] eqn:Hq2;
    cbn [call bind app fst snd]; [now apply (TryQuery2 w req d e subs)|].
  assert (Hs : store_ok w subs season) by (repeat split; assumption).
  destruct (first_1000_pure w (content_of d)) as [[e|head] Hf]; rewrite Hf;
    cbn [call bind app fst snd]; [now apply (TrySlice w req d e subs season)|].
  change 20%Z with (Z.of_nat 20). rewrite !slice_to.
  fold (call_for w d head subs season).
  destruct (generate_content w (call_for w d head subs season))
    as [e|text] eqn:Hg; cbn [call bind app fst snd].
  - now apply (TryModel w req d e head subs season).
  - rewrite remove_code_blocks_ret. cbn [bind ret app fst snd].
    now apply (TryOk w req d text head subs season).
Qed.

(** The response and the calls of the handler, by method. *)
Lemma handler_outcome {Row} (w : world Row) (req : request) :
  (method req = OPTIONS /\
   get_publishing_recommendation w req
   = ({| resp_body := Text (py ""); status := 204;
         headers := preflight_headers |}, []))
  \/ (method req = POST /\
      exists t r, try_outcome w req t r /\
                  get_publishing_recommendation w req = (caught r, t)).
Proof.
  destruct (method req) eqn:Hm.
  - right. split; [reflexivity|].
    exists (fst (recommend w req)), (snd (recommend w req)).
    split; [apply recommend_outcome|now apply handler_post].
  - left. split; [reflexivity|].
    unfold get_publishing_recommendation. now rewrite Hm.
Qed.

Lemma first_1000_raises_other {Row} (w : world Row) (content : json) (e : exn) :
  first_1000 w content = ([], inl e) -> exists m, e = OtherError m.
Proof. destruct content; intros [= <-]; now eexists. Qed.

(* ================================================================== *)
(** ** Further properties of the handler *)
(* ================================================================== *)

(** X1: a POST whose body is a truthy JSON value other than an object (a
    non-empty array or string, a non-zero number, true) is answered with
    status 500 and the message of the [AttributeError] that [.get] raises
    on it; no call to the outside is made. *)
Theorem non_object_body_is_500 {Row} (w : world Row) (req : request) :
  method req = POST ->
  truthy (get_json_silent req) = true ->
  is_object (get_json_silent req) = false ->
  get_publishing_recommendation w req
  = ({| resp_body :=
          error_body (py "'" ++ type_name (get_json_silent req)
                      ++ py "' object has no attribute 'get'");
        status := 500; headers := json_headers |}, []).
Proof.
  intros Hm Ht Ho. rewrite (handler_post w req Hm).
  pose proof (recommend_outcome w req) as H.
  destruct (recommend w req) as [t r]. cbn [fst snd] in *.
  inversion H; subst; clash. reflexivity.
Qed.

Lemma non_object_body_is_500_witness :
  get_publishing_recommendation (demo_world (inr []))
    (post (JArray [JString (py "title")]))
  = (error_response (OtherError (py "'list' object has no attribute 'get'")),
     []).
Proof.
  apply (non_object_body_is_500 (demo_world (inr []))
           (post (JArray [JString (py "title")]))); reflexivity.
Defined.

(** X2: when [title] and [content] are both truthy but [content] is
    neither a string nor a list (a number, true, an object), slicing it
    raises only after the client was made and both queries were run: the
    answer is a 500, the store was queried twice and the model was not
    called. *)
Theorem unsliceable_content_fails_after_queries {Row} (w : world Row)
  (req : request) (d : list (pystr * json)) (subs season : list Row) :
  method req = POST ->
  passes req d ->
  store_ok w subs season ->
  match content_of d with
  | JString _ | JArray _ => False
  | _ => True
  end ->
  get_publishing_recommendation w req
  = ({| resp_body :=
          error_body
            match content_of d with
            | JObject _ => dict_slice_error w
            | v => py "'" ++ type_name v ++ py "' object is not subscriptable"
            end;
        status := 500; headers := json_headers |},
     [EvClient; EvQuery query_subscription; EvQuery query_seasonality]).
Proof.
  intros Hm Hp Hs Hc. rewrite (handler_post w req Hm).
  pose proof (recommend_outcome w req) as H.
  destruct (recommend w req) as [t r]. cbn [fst snd] in *.
  inversion H; subst; clash;
    match goal with
    | H : first_1000 _ ?c = _ |- _ =>
        destruct c; try contradiction; cbn in H;
        first [discriminate H | injection H as <-; reflexivity]
    end.
Qed.

Lemma unsliceable_content_fails_after_queries_witness :
  get_publishing_recommendation (demo_world (inr []))
    (post (JObject [ (py "title", JString (py "T"));
                     (py "content", JInt 7) ]))
  = (error_response (OtherError (py "'int' object is not subscriptable")),
     [EvClient; EvQuery query_subscription; EvQuery query_seasonality]).
Proof.
  apply (unsliceable_content_fails_after_queries (demo_world (inr []))
           (post (JObject [ (py "title", JString (py "T"));
                            (py "content", JInt 7) ]))
           [ (py "title", JString (py "T")); (py "content", JInt 7) ]
           [py "{'row': 1}"; py "{'row': 2}"]
           [py "{'row': 1}"; py "{'row': 2}"] eq_refl);
    [repeat split|apply demo_store_ok|exact I].
Defined.

(** X4: whatever the request and the world, the calls to the outside are
    an initial part of the sequence client, subscription query,
    seasonality query, model: each is made at most once, none is retried,
    and the model is only called after both queries returned. *)
Theorem calls_in_order_at_most_once {Row} (w : world Row) (req : request) :
  exists c n,
    snd (get_publishing_recommendation w req)
    = firstn n [ EvClient; EvQuery query_subscription;
                 EvQuery query_seasonality; EvGenerate c ].
Proof.
  destruct (handler_outcome w req) as [[_ ->]|(_ & t & r & H & ->)].
  - exists (gemini_call []), 0. reflexivity.
  - cbn [snd]. inversion H; subst;
      try (exists (gemini_call []), 0; reflexivity);
      try (exists (gemini_call []), 1; reflexivity);
      try (exists (gemini_call []), 2; reflexivity);
      try (exists (gemini_call []), 3; reflexivity);
      eexists; exists 4; reflexivity.
Qed.

(** X5: the status of a response is 204, 200, 400 or 500, and it is 204
    exactly for the OPTIONS method. *)
Theorem status_is_one_of_four {Row} (w : world Row) (req : request) :
  In (status (fst (get_publishing_recommendation w req)))
     [204%Z; 200%Z; 400%Z; 500%Z]
  /\ (status (fst (get_publishing_recommendation w req)) = 204%Z
      <-> method req = OPTIONS).
Proof.
  destruct (handler_outcome w req) as [[Hm ->]|(Hm & t & r & H & ->)].
  - split; [now left|]. split; auto.
  - cbn [fst].
    assert (Hs : In (status (caught r)) [200%Z; 400%Z; 500%Z]).
    { inversion H; subst; cbn; try destruct e; cbn; auto. }
    split; [now right; destruct Hs as [<-|[<-|[<-|[]]]]; cbn; auto|].
    rewrite Hm. split; [|discriminate].
    destruct Hs as [E|[E|[E|[]]]]; rewrite <- E; discriminate.
Qed.

(** X6: a response with status 200 or 500 carries the two JSON headers,
    among them [Access-Control-Allow-Origin: *]; a response with status
    400 carries no header of the handler's, so not the cross-origin one;
    a 204 carries the preflight headers. *)
Theorem headers_by_status {Row} (w : world Row) (req : request) :
  let r := fst (get_publishing_recommendation w req) in
  (status r = 200%Z \/ status r = 500%Z ->
   headers r = json_headers /\
   header (py "Access-Control-Allow-Origin") (headers r) = Some (py "*"))
  /\ (status r = 400%Z ->
      headers r = [] /\
      header (py "Access-Control-Allow-Origin") (headers r) = None)
  /\ (status r = 204%Z -> headers r = preflight_headers).
Proof.
  destruct (handler_outcome w req) as [[Hm ->]|(Hm & t & r & H & ->)];
    cbn [fst].
  - cbn. split; [intros [|]; discriminate|].
    split; [discriminate|reflexivity].
  - assert (Hc : (status (caught r) = 400%Z /\ headers (caught r) = [])
                 \/ ((status (caught r) = 200%Z \/ status (caught r) = 500%Z)
                     /\ headers (caught r) = json_headers)).
    { inversion H; subst; cbn; try destruct e; cbn; auto. }
    destruct Hc as [[Es Eh]|[Es Eh]]; rewrite Eh.
    + rewrite Es. split; [intros [|]; discriminate|].
      split; [intros _; split; reflexivity|discriminate].
    + split; [intros _; split; reflexivity|].
      destruct Es as [Es|Es]; rewrite Es; split; discriminate.
Qed.

(** X7: a response with status 400 is one of the two validation answers,
    and it is made without any call to the store or to the model. *)
Theorem rejection_makes_no_call {Row} (w : world Row) (req : request) :
  status (fst (get_publishing_recommendation w req)) = 400%Z ->
  snd (get_publishing_recommendation w req) = []
  /\ (fst (get_publishing_recommendation w req)
      = bad_request (py "No JSON data provided")
      \/ fst (get_publishing_recommendation w req)
         = bad_request (py "Title and content are required")).
Proof.
  destruct (handler_outcome w req) as [[Hm ->]|(Hm & t & r & H & ->)];
    cbn [fst snd]; [discriminate|].
  inversion H; subst; cbn; try destruct e; cbn; try discriminate; auto.
Qed.

Lemma rejection_makes_no_call_witness :
  snd (get_publishing_recommendation (demo_world (inr []))
         (post (JObject [ (py "title", JString (py "T")) ]))) = []
  /\ (fst (get_publishing_recommendation (demo_world (inr []))
             (post (JObject [ (py "title", JString (py "T")) ])))
      = bad_request (py "No JSON data provided")
      \/ fst (get_publishing_recommendation (demo_world (inr []))
                (post (JObject [ (py "title", JString (py "T")) ])))
         = bad_request (py "Title and content are required")).
Proof.
  apply (rejection_makes_no_call (demo_world (inr []))
           (post (JObject [ (py "title", JString (py "T")) ]))).
  reflexivity.
Defined.

(** X8: a response with status 200 means that the body passed both
    validations, that the client, both queries and the model call all
    returned, in that order and once each, and that [data] is what the
    text of the model parses to, or the fallback. *)
Theorem success_means_every_call_returned {Row} (w : world Row)
  (req : request) :
  status (fst (get_publishing_recommendation w req)) = 200%Z ->
  exists d head subs season text,
    passes req d /\ store_ok w subs season
    /\ first_1000 w (content_of d) = ([], inr head)
    /\ generate_content w (call_for w d head subs season) = inr text
    /\ get_publishing_recommendation w req
       = (ok_response (parse_or_fallback (candidate text)),
          [ EvClient; EvQuery query_subscription; EvQuery query_seasonality;
            EvGenerate (call_for w d head subs season) ]).
Proof.
  destruct (handler_outcome w req) as [[Hm ->]|(Hm & t & r & H & ->)];
    cbn [fst snd]; [discriminate|].
  inversion H; subst; cbn; try destruct e; cbn; try discriminate.
  intros _. now exists d, head, subs, season, text.
Qed.

Lemma success_means_every_call_returned_witness :
  exists d head subs season text,
    passes demo_request d
    /\ store_ok (demo_world (inr (py "{}"))) subs season
    /\ first_1000 (demo_world (inr (py "{}"))) (content_of d)
       = ([], inr head)
    /\ generate_content (demo_world (inr (py "{}")))
         (call_for (demo_world (inr (py "{}"))) d head subs season)
       = inr text
    /\ get_publishing_recommendation (demo_world (inr (py "{}")))
         demo_request
       = (ok_response (parse_or_fallback (candidate text)),
          [ EvClient; EvQuery query_subscription; EvQuery query_seasonality;
            EvGenerate
              (call_for (demo_world (inr (py "{}"))) d head subs season) ]).
Proof.
  apply (success_means_every_call_returned (demo_world (inr (py "{}")))
           demo_request).
  reflexivity.
Defined.

(** X9: every call to the model, for every request and world, names the
    model gemini-2.5-pro and carries the temperature 0.2, the limit of
    7000 output tokens and top-p 0.9. *)
Theorem generation_settings_are_fixed {Row} (w : world Row) (req : request)
  (c : generation_call) :
  In (EvGenerate c) (snd (get_publishing_recommendation w req)) ->
  model_name c = py "gemini-2.5-pro" /\ temperature c = py "0.2"
  /\ max_output_tokens c = 7000%Z /\ top_p c = py "0.9".
Proof.
  destruct (handler_outcome w req) as [[Hm ->]|(Hm & t & r & H & ->)];
    cbn [snd]; [intros []|].
  inversion H; subst; cbn [In]; intros Hin;
    repeat match goal with
           | H : _ \/ _ |- _ => destruct H as [H|H]
           | H : False |- _ => destruct H
           | H : _ = EvGenerate _ |- _ =>
               first [discriminate H | injection H as <-]
           end;
    repeat split.
Qed.

Lemma generation_settings_are_fixed_witness :
  model_name (model_call (demo_world (inr (py "{}")))
                (JString (py "Budget night")) (py "The treasurer said")
                (JString (py "Australia"))
                [py "{'row': 1}"; py "{'row': 2}"]
                [py "{'row': 1}"; py "{'row': 2}"])
  = py "gemini-2.5-pro".
Proof.
  refine (proj1 (generation_settings_are_fixed (demo_world (inr (py "{}")))
                   demo_request _ _)).
  rewrite (recommend_reaches_model _ _ _ _ _ _ _
             demo_request_well_formed (demo_store_ok _)).
  cbn [snd In]. auto.
Defined.

(** X10: for a POST, the status is 400 exactly when the body is falsy
    (absent, null, empty, zero, false) or is an object whose [title] or
    [content] is absent or falsy. *)
Theorem bad_request_exactly_when {Row} (w : world Row) (req : request) :
  method req = POST ->
  (status (fst (get_publishing_recommendation w req)) = 400%Z
   <-> truthy (get_json_silent req) = false
       \/ exists d, get_json_silent req = JObject d
                    /\ (truthy (title_of d) = false
                        \/ truthy (content_of d) = false)).
Proof.
  intros Hm. rewrite (handler_post w req Hm). cbn [fst].
  pose proof (recommend_outcome w req) as H.
  destruct (recommend w req) as [t r]. cbn [fst snd] in *.
  split.
  - inversion H; subst; cbn; try destruct e; cbn; try discriminate;
      intros _; [now left|right; now exists d].
  - intros [Hf|(d & Hd & Hv)];
      inversion H; subst; clash; try reflexivity;
      try (destruct Hv; congruence);
      try (cbn in *; discriminate).
Qed.

Lemma bad_request_exactly_when_witness :
  status (fst (get_publishing_recommendation (demo_world (inr []))
                 (post (JObject [ (py "content", JString (py "C")) ]))))
  = 400%Z.
Proof.
  apply (bad_request_exactly_when (demo_world (inr []))
           (post (JObject [ (py "content", JString (py "C")) ])) eq_refl).
  right. eexists. split; [reflexivity|]. left. reflexivity.
Defined.

(** X11: the [try] block ends in a [json.JSONDecodeError] only when the
    client, a query or the model call raised it: the handler's own
    [json.loads] never reaches the clause that reports
    "Failed to parse AI response". *)
Theorem decode_error_comes_from_outside {Row} (w : world Row) (req : request)
  (m : pystr) :
  snd (recommend w req) = inl (JSONDecodeError m) ->
  new_client w = Some (JSONDecodeError m)
  \/ run_query w query_subscription = inl (JSONDecodeError m)
  \/ run_query w query_seasonality = inl (JSONDecodeError m)
  \/ exists c, generate_content w c = inl (JSONDecodeError m).
Proof.
  pose proof (recommend_outcome w req) as H.
  destruct (recommend w req) as [t r]. cbn [fst snd] in *.
  intros ->. inversion H; subst; auto.
  - match goal with
    | H : first_1000 _ _ = _ |- _ =>
        apply first_1000_raises_other in H as [? ?]; discriminate
    end.
  - right. right. right. eexists. eassumption.
Qed.

Lemma decode_error_comes_from_outside_witness :
  new_client (demo_world (inl (JSONDecodeError (py "Expecting value"))))
  = Some (JSONDecodeError (py "Expecting value"))
  \/ run_query (demo_world (inl (JSONDecodeError (py "Expecting value"))))
       query_subscription = inl (JSONDecodeError (py "Expecting value"))
  \/ run_query (demo_world (inl (JSONDecodeError (py "Expecting value"))))
       query_seasonality = inl (JSONDecodeError (py "Expecting value"))
  \/ exists c,
       generate_content
         (demo_world (inl (JSONDecodeError (py "Expecting value")))) c
       = inl (JSONDecodeError (py "Expecting value")).
Proof.
  apply (decode_error_comes_from_outside
           (demo_world (inl (JSONDecodeError (py "Expecting value"))))
           demo_request).
  reflexivity.
Defined.

(** X3: when the body has no [region] key the prompt names the region
    Australia; when the key is present its value is used as it is, also
    when it is empty or null (the default is not applied then). *)
Theorem region_defaults_to_australia {Row} (w : world Row) (req : request)
  (d : list (pystr * json)) (title : json) (content : pystr) (region : json)
  (subs season : list Row) :
  well_formed req title content region ->
  json_body req = Some (JObject d) ->
  store_ok w subs season ->
  prompts (snd (get_publishing_recommendation w req))
  = [ segment 0 ++ format_value w title ++
      segment 1 ++ firstn 1000 content ++
      segment 2 ++
      match dict_lookup (py "region") d with
      | None => py "Australia"
      | Some v => format_value w v
      end ++
      segment 3 ++ json_dumps w (firstn 20 subs) ++
      segment 4 ++ json_dumps w (firstn 20 season) ++ segment 5 ].
Proof.
  intros Hreq Hb Hstore.
  rewrite (recommend_reaches_model w req title content region subs season
             Hreq Hstore).
  cbn [snd prompts model_call gemini_call prompt].
  rewrite build_prompt_segments.
  destruct Hreq as (_ & d' & Hb' & _ & _ & _ & _ & Hr).
  assert (d' = d) by congruence. subst d'. rewrite <- Hr.
  unfold dict_get. now destruct (dict_lookup (py "region") d).
Qed.

Lemma region_defaults_to_australia_witness :
  prompts (snd (get_publishing_recommendation (demo_world (inr (py "{}")))
                  demo_request))
  = [ segment 0 ++ py "Budget night" ++
      segment 1 ++ py "The treasurer said" ++
      segment 2 ++ py "Australia" ++
      segment 3 ++ py "[{'row': 1}{'row': 2}]" ++
      segment 4 ++ py "[{'row': 1}{'row': 2}]" ++ segment 5 ].
Proof.
  rewrite (region_defaults_to_australia (demo_world (inr (py "{}")))
             demo_request _ _ _ _ _ _
             demo_request_well_formed eq_refl (demo_store_ok _)).
  vm_compute. reflexivity.
Defined.

(** X12: a content of at most 1000 characters goes into the prompt whole,
    and so does a result set of at most 20 rows into its serialisation. *)
Theorem short_inputs_are_not_cut {Row} (w : world Row) (req : request)
  (title : json) (content : pystr) (region : json) (subs season : list Row) :
  well_formed req title content region ->
  store_ok w subs season ->
  length content <= 1000 -> length subs <= 20 -> length season <= 20 ->
  prompts (snd (get_publishing_recommendation w req))
  = [ segment 0 ++ format_value w title ++
      segment 1 ++ content ++
      segment 2 ++ format_value w region ++
      segment 3 ++ json_dumps w subs ++
      segment 4 ++ json_dumps w season ++ segment 5 ].
Proof.
  intros Hreq Hstore Hc H1 H2.
  rewrite (recommend_reaches_model w req title content region subs season
             Hreq Hstore).
  cbn [snd prompts model_call gemini_call prompt].
  rewrite build_prompt_segments.
  now rewrite !firstn_all2 by assumption.
Qed.

Lemma short_inputs_are_not_cut_witness :
  prompts (snd (get_publishing_recommendation (demo_world (inr (py "{}")))
                  demo_request))
  = [ segment 0 ++ py "Budget night" ++
      segment 1 ++ py "The treasurer said" ++
      segment 2 ++ py "Australia" ++
      segment 3 ++ py "[{'row': 1}{'row': 2}]" ++
      segment 4 ++ py "[{'row': 1}{'row': 2}]" ++ segment 5 ].
Proof.
  rewrite (short_inputs_are_not_cut (demo_world (inr (py "{}")))
             demo_request _ _ _ _ _
             demo_request_well_formed (demo_store_ok _));
    [vm_compute; reflexivity|vm_compute; lia|vm_compute; lia|vm_compute; lia].
Defined.

Lemma build_prompt_length (title content region subs season : pystr) :
  length (build_prompt title content region subs season)
  = 1470 + length title + length content + length region
    + length subs + length season.
Proof.
  rewrite build_prompt_segments, !length_app.
  assert (E : length (segment 0) + length (segment 1) + length (segment 2)
              + length (segment 3) + length (segment 4) + length (segment 5)
              = 1470) by (vm_compute; reflexivity).
  lia.
Qed.

(** X13: the prompt is 1470 characters of fixed text, the title, the
    region and the two serialisations in full, and at most 1000
    characters of content: its length is their sum. *)
Theorem prompt_length {Row} (w : world Row) (req : request)
  (title : json) (content : pystr) (region : json) (subs season : list Row) :
  well_formed req title content region ->
  store_ok w subs season ->
  exists p,
    prompts (snd (get_publishing_recommendation w req)) = [p]
    /\ length p
       = 1470 + length (format_value w title)
         + Nat.min 1000 (length content)
         + length (format_value w region)
         + length (json_dumps w (firstn 20 subs))
         + length (json_dumps w (firstn 20 season)).
Proof.
  intros Hreq Hstore.
  rewrite (recommend_reaches_model w req title content region subs season
             Hreq Hstore).
  cbn [snd prompts model_call gemini_call prompt].
  eexists. split; [reflexivity|].
  now rewrite build_prompt_length, length_firstn.
Qed.

Lemma prompt_length_witness :
  exists p,
    prompts (snd (get_publishing_recommendation (demo_world (inr (py "{}")))
                    demo_long_request)) = [p]
    /\ length p = 1470 + 12 + 1000 + 2 + 22 + 22.
Proof.
  destruct (prompt_length (demo_world (inr (py "{}"))) demo_long_request
              _ _ _ _ _ demo_long_request_well_formed (demo_store_ok _))
    as (p & Hp & Hl).
  exists p. split; [exact Hp|]. rewrite Hl. vm_compute. reflexivity.
Defined.

(* ================================================================== *)
(** ** Further properties of the cleaning steps *)
(* ================================================================== *)

Lemma extract_json_braced (pre mid post : pystr) :
  contains (chr "{") pre = false -> contains (chr "}") post = false ->
  extract_json (pre ++ chr "{" :: mid ++ chr "}" :: post)
  = chr "{" :: mid ++ [chr "}"].
Proof.
  intros Hpre Hpost.
  set (t := pre ++ chr "{" :: mid ++ chr "}" :: post).
  assert (Et : t = (pre ++ chr "{" :: mid) ++ chr "}" :: post)
    by (unfold t; now rewrite <- app_assoc).
  rewrite (extract_json_slice t (length pre) (length (pre ++ chr "{" :: mid))).
  - rewrite Et at 1.
    change ((pre ++ chr "{" :: mid) ++ chr "}" :: post)
      with ((pre ++ chr "{" :: mid) ++ [chr "}"] ++ post).
    rewrite app_assoc.
    replace (S (length (pre ++ chr "{" :: mid)))
      with (length ((pre ++ chr "{" :: mid) ++ [chr "}"]))
      by (rewrite !length_app; simpl; lia).
    rewrite firstn_middle, <- !app_assoc, skipn_middle. reflexivity.
  - unfold t. rewrite contains_app. simpl. apply orb_true_r.
  - rewrite Et, contains_app. simpl. apply orb_true_r.
  - unfold t. now apply find_app.
  - rewrite Et. now apply rfind_app.
  - rewrite Et, !length_app. cbn [length]. lia.
Qed.

(** With both braces present the extraction is empty (the last closing
    brace comes before the first opening one) or is a braced text. *)
Lemma extract_json_empty_or_braced (t : pystr) :
  contains (chr "{") t = true -> contains (chr "}") t = true ->
  extract_json t = []
  \/ exists mid, extract_json t = chr "{" :: mid ++ [chr "}"].
Proof.
  intros Ho Hc.
  destruct (first_occurrence _ _ Ho) as (p1 & q1 & E1 & H1).
  destruct (last_occurrence _ _ Hc) as (p2 & q2 & E2 & H2).
  destruct (Nat.lt_ge_cases (length p1) (length p2)) as [Hlt|Hge].
  - right.
    assert (E : p1 ++ chr "{" :: q1 = p2 ++ chr "}" :: q2) by congruence.
    apply app_eq_app in E as [l [[Ep Eq]|[Ep Eq]]].
    + apply (f_equal (@length _)) in Ep. rewrite length_app in Ep. lia.
    + destruct l as [|x mid].
      * rewrite app_nil_r in Ep. subst. lia.
      * injection Eq as <- Eq. subst q1 p2. exists mid. rewrite E1.
        now apply extract_json_braced.
  - left.
    assert (Hi : find (chr "{") t = Z.of_nat (length p1))
      by (rewrite E1; now apply find_app).
    assert (Hj : rfind (chr "}") t = Z.of_nat (length p2))
      by (rewrite E2; now apply rfind_app).
    rewrite (extract_json_slice t _ _ Ho Hc Hi Hj)
      by (rewrite E2, length_app; cbn [length]; lia).
    apply skipn_all2. rewrite length_firstn.
    assert (length p1 <> length p2); [|lia].
    intros E.
    assert (Hn : nth_error t (length p1) = Some (chr "{"))
      by (rewrite E1; apply nth_error_middle).
    rewrite E, E2, nth_error_middle in Hn. discriminate.
Qed.

(** X14: extracting twice is extracting once. *)
Theorem extract_json_idempotent (t : pystr) :
  extract_json (extract_json t) = extract_json t.
Proof.
  destruct (contains (chr "{") t && contains (chr "}") t) eqn:Hb.
  - apply andb_true_iff in Hb as [Ho Hc].
    destruct (extract_json_empty_or_braced t Ho Hc) as [->|[mid ->]].
    + reflexivity.
    + apply (extract_json_braced [] mid []); reflexivity.
  - assert (E : extract_json t = t) by (unfold extract_json; now rewrite Hb).
    now rewrite !E.
Qed.

Lemma object_members_object (scan : pystr -> Decoder.parsed json) (n : nat) :
  forall acc s v r,
    Decoder.object_members scan n acc s = Decoder.Parsed v r ->
    is_object v = true.
Proof.
  induction n as [|n IH]; intros acc s v r H; [discriminate|].
  cbn [Decoder.object_members] in H.
  repeat (split_match H; try discriminate).
  - now injection H as <- _.
  - now apply IH in H.
Qed.

Lemma scan_once_braced (f : nat) (r : pystr) (v : json) (r' : pystr) :
  Decoder.scan_once f (chr "{" :: r) = Decoder.Parsed v r' ->
  is_object v = true.
Proof.
  destruct f as [|f]; [discriminate|]. cbn [Decoder.scan_once].
  change (N.eqb (chr "{") 34) with false.
  change (ischr (chr "{") "{") with true. cbv iota.
  unfold Decoder.parse_object. intros H.
  repeat (split_match H; try discriminate).
  - now injection H as <- _.
  - now apply object_members_object in H.
Qed.

(** A text that opens with a brace decodes to an object, if at all. *)
Lemma json_loads_braced (r : pystr) (v : json) :
  json_loads (chr "{" :: r) = Some v -> is_object v = true.
Proof.
  unfold json_loads, Decoder.decode.
  change (startswith [65279%N] (chr "{" :: r)) with false.
  change (Decoder.skip_ws (chr "{" :: r)) with (chr "{" :: r). cbv iota.
  destruct (Decoder.scan_once _ _) as [v0 r0| |] eqn:E; try discriminate.
  apply scan_once_braced in E.
  destruct (Decoder.skip_ws r0); intros [= <-]; assumption.
Qed.

(** X15: when the text handed to the extraction holds both an opening and
    a closing brace, the result taken from it (the parsed value, or the
    fallback) is always a JSON object: a list, a number or a string on
    its own cannot come out. *)
Theorem braces_give_an_object (t : pystr) :
  contains (chr "{") t = true -> contains (chr "}") t = true ->
  is_object (parse_or_fallback (extract_json t)) = true.
Proof.
  intros Ho Hc. unfold parse_or_fallback.
  destruct (extract_json_empty_or_braced t Ho Hc) as [->|[mid ->]].
  - reflexivity.
  - destruct (json_loads (chr "{" :: mid ++ [chr "}"])) as [v|] eqn:E;
      [|reflexivity].
    now apply json_loads_braced in E.
Qed.

Lemma braces_give_an_object_witness :
  is_object (parse_or_fallback (extract_json (pyq "[{'a': 1}, {'b': 2}]")))
  = true.
Proof.
  apply (braces_give_an_object (pyq "[{'a': 1}, {'b': 2}]")); reflexivity.
Defined.

Lemma lstrip_spaces (ws x : pystr) :
  forallb isspace ws = true -> lstrip (ws ++ x) = lstrip x.
Proof.
  induction ws as [|c ws IH]; [reflexivity|]. cbn [forallb app lstrip].
  intros H. apply andb_true_iff in H as [-> H]. now apply IH.
Qed.

Lemma forallb_rev {A} (f : A -> bool) (l : list A) :
  forallb f l = true -> forallb f (rev l) = true.
Proof.
  rewrite !forallb_forall. intros H x Hx. apply H. now apply in_rev.
Qed.

(** Stripping removes the white space around a text that neither begins
    nor ends with a white-space character. *)
Lemma strip_padded (ws1 ws2 mid : pystr) (a b : char) :
  forallb isspace ws1 = true -> forallb isspace ws2 = true ->
  isspace a = false -> isspace b = false ->
  strip (ws1 ++ (a :: mid ++ [b]) ++ ws2) = a :: mid ++ [b].
Proof.
  intros H1 H2 Ha Hb. unfold strip, rstrip.
  rewrite (lstrip_spaces ws1 _ H1).
  cbn [app lstrip]. rewrite Ha.
  change (a :: (mid ++ [b]) ++ ws2) with ((a :: mid ++ [b]) ++ ws2).
  rewrite rev_app_distr, (lstrip_spaces _ _ (forallb_rev _ _ H2)).
  change (a :: mid ++ [b]) with ((a :: mid) ++ [b]).
  rewrite rev_unit. cbn [lstrip]. rewrite Hb.
  now rewrite <- rev_unit, rev_involutive.
Qed.

(** X16: a model answer that is one braced text, with white space around
    it at most, reaches [json.loads] unchanged: no step of the cleaning
    touches it. *)
Theorem braced_answer_is_untouched (ws1 ws2 mid : pystr) :
  forallb isspace ws1 = true -> forallb isspace ws2 = true ->
  candidate (ws1 ++ (chr "{" :: mid ++ [chr "}"]) ++ ws2)
  = chr "{" :: mid ++ [chr "}"].
Proof.
  intros H1 H2. unfold candidate.
  rewrite (strip_padded ws1 ws2 mid _ _ H1 H2) by reflexivity.
  assert (Eu : unfenced (chr "{" :: mid ++ [chr "}"])
               = chr "{" :: mid ++ [chr "}"]).
  { unfold unfenced.
    change (startswith fence (chr "{" :: mid ++ [chr "}"])) with false.
    cbv iota. unfold endswith.
    change (chr "{" :: mid ++ [chr "}"]) with ((chr "{" :: mid) ++ [chr "}"]).
    rewrite rev_unit. reflexivity. }
  rewrite Eu. apply (extract_json_braced [] mid []); reflexivity.
Qed.

Lemma braced_answer_is_untouched_witness :
  candidate (py "  " ++ (chr "{" :: pyq "'a': 1" ++ [chr "}"]) ++ nl)
  = chr "{" :: pyq "'a': 1" ++ [chr "}"].
Proof.
  apply (braced_answer_is_untouched (py "  ") nl (pyq "'a': 1"));
    reflexivity.
Defined.

Lemma occurs_refl (s : pystr) : occurs s s.
Proof. exists [], []. now rewrite app_nil_r. Qed.

Lemma occurs_trans (a b c : pystr) : occurs a b -> occurs b c -> occurs a c.
Proof. intros H (u & v & ->). now apply occurs_inside. Qed.

Lemma occurs_skipn (k : nat) (s : pystr) : occurs (skipn k s) s.
Proof.
  exists (firstn k s), []. now rewrite app_nil_r, firstn_skipn.
Qed.

Lemma occurs_firstn (k : nat) (s : pystr) : occurs (firstn k s) s.
Proof. exists [], (skipn k s). simpl. now rewrite firstn_skipn. Qed.

Lemma occurs_slice (s : pystr) (lo hi : option Z) : occurs (slice s lo hi) s.
Proof.
  unfold slice. eapply occurs_trans; [apply occurs_skipn|apply occurs_firstn].
Qed.

Lemma occurs_strip (s : pystr) : occurs (strip s) s.
Proof. destruct (strip_inside s) as (a & b & E). now exists a, b. Qed.

Lemma occurs_unfenced (t : pystr) : occurs (unfenced t) t.
Proof.
  assert (H1 : occurs (if startswith fence t then first_block t else t) t).
  { destruct (startswith fence t); [|apply occurs_refl].
    unfold first_block.
    eapply occurs_trans; [apply occurs_strip|].
    eapply occurs_trans; [|apply (occurs_skipn 3)].
    eapply occurs_trans;
      [|destruct (before_prefix fence (skipn 3 t)) as [rest E];
        exists [], rest; exact E].
    unfold drop_json_tag.
    destruct (startswith _ _); [apply occurs_skipn|apply occurs_refl]. }
  unfold unfenced.
  destruct (endswith fence _); [|exact H1].
  eapply occurs_trans; [apply occurs_strip|].
  eapply occurs_trans; [apply occurs_firstn|exact H1].
Qed.

(** X17: the text handed to [json.loads] is always one contiguous piece
    of the text the model returned: the cleaning only cuts, it never adds
    or reorders. *)
Theorem candidate_is_a_piece_of_the_text (text : pystr) :
  occurs (candidate text) text.
Proof.
  unfold candidate.
  eapply occurs_trans; [|apply occurs_strip].
  eapply occurs_trans; [|apply occurs_unfenced].
  unfold extract_json.
  destruct (_ && _); [apply occurs_slice|apply occurs_refl].
Qed.

(** X18: a model answer that is empty or only white space gives a 200
    with the fallback. *)
Theorem blank_answer_gives_fallback {Row} (w : world Row) (req : request)
  (title : json) (content : pystr) (region : json) (subs season : list Row)
  (text : pystr) :
  well_formed req title content region ->
  store_ok w subs season ->
  generate_content w (model_call w title content region subs season)
    = inr text ->
  forallb isspace text = true ->
  fst (get_publishing_recommendation w req) = ok_response fallback_result.
Proof.
  intros Hreq Hstore Hgen Hblank.
  rewrite (recommend_reaches_model w req title content region subs season
             Hreq Hstore), Hgen.
  cbn [fst]. f_equal. unfold candidate.
  assert (E : strip text = []).
  { unfold strip. rewrite <- (app_nil_r text), (lstrip_spaces _ _ Hblank).
    reflexivity. }
  now rewrite E.
Qed.

Lemma blank_answer_gives_fallback_witness :
  fst (get_publishing_recommendation (demo_world (inr (py "  " ++ nl)))
         demo_request)
  = ok_response fallback_result.
Proof.
  apply (blank_answer_gives_fallback (demo_world (inr (py "  " ++ nl)))
           demo_request _ _ _ _ _ (py "  " ++ nl)
           demo_request_well_formed (demo_store_ok _));
    reflexivity.
Defined.
